(** * Material news monitor (trend.py): scoring, deduplication, ranking

    A shallow embedding of the aggregation pipeline of [src/trend.py] and the
    properties of its relevance score, its two-phase deduplication, its date
    normalisation, its retry loop and its final ordering.

    Conventions of the embedding.
    - Python [str] values are byte strings ([string]); [str.lower] is the
      ASCII lower-casing, every other byte is left as it is.
    - Python floats are exact rationals ([Q]); [int(x)] is truncation toward
      zero ([py_int]).  Rounding of the floating-point unit is not modelled.
    - The imported libraries (rapidfuzz, hashlib, datetime/dateutil, requests,
      random, pandas' sort) are not part of the repository.  The functions the
      code calls from them are parameters of the sections below; what the
      proofs need to know about them is stated as section hypotheses, and
      the module [Ref] gives concrete instances that satisfy them. *)

From Stdlib Require Import ZArith QArith Qminmax Qround Lia Lqa Bool.
From Stdlib Require Import Ascii String List Sorted Permutation.
From stdpp Require Import gmap strings.
Import ListNotations.

Local Open Scope string_scope.
Local Open Scope list_scope.

(* ===================================================================== *)
(** * Text utilities *)
(* ===================================================================== *)

Module Text.

(** [c.lower()] on one ASCII character. *)
Definition lower_ascii (c : ascii) : ascii :=
  let n := nat_of_ascii c in
  if (65 <=? n)%nat && (n <=? 90)%nat then ascii_of_nat (n + 32) else c.

(** [s.lower()] *)
Fixpoint lower (s : string) : string :=
  match s with
  | EmptyString => EmptyString
  | String c s' => String (lower_ascii c) (lower s')
  end.

(** [s.startswith(p)] *)
Fixpoint starts_with (p s : string) : bool :=
  match p, s with
  | EmptyString, _ => true
  | String _ _, EmptyString => false
  | String a p', String b s' => Ascii.eqb a b && starts_with p' s'
  end.

(** [k in s] on strings: [k] occurs in [s] as a contiguous substring. *)
Fixpoint contains (k s : string) : bool :=
  starts_with k s ||
  match s with
  | EmptyString => false
  | String _ s' => contains k s'
  end.

(** The characters of a string, in order. *)
Fixpoint chars (s : string) : list ascii :=
  match s with
  | EmptyString => []
  | String c s' => c :: chars s'
  end.

(** [x or ""] for a value that may be [None]. *)
Definition or_empty (x : option string) : string :=
  match x with
  | Some s => s
  | None => ""
  end.

(** [not x] for an optional string: [None] and [""] are falsy. *)
Definition falsy (x : option string) : bool :=
  match x with
  | None => true
  | Some EmptyString => true
  | Some (String _ _) => false
  end.

End Text.

(* ===================================================================== *)
(** * Numbers: Python's [int], [min] and [max] on rationals *)
(* ===================================================================== *)

(** [int(x)]: truncation toward zero. *)
Definition py_int (x : Q) : Z := Z.quot (Qnum x) (Zpos (Qden x)).


(* ===================================================================== *)
(** * Configuration (lines 28-139) *)
(* ===================================================================== *)

Module Config.

Definition MAX_ITEMS_PER_MATERIAL_PER_SOURCE : nat := 12.
Definition MIN_RELEVANCE : Z := 60.
Definition GDELT_DAYS_BACK : Z := 10.
Definition HTTP_TIMEOUT : Z := 20.
Definition RETRY_ATTEMPTS : nat := 3.
Definition RETRY_BACKOFF : Q * Q := ((12 # 10)%Q, (2 # 1)%Q).

Definition PINNED_SIGNALS : list string :=
  [ "https://www.bbc.com/news/articles/c9qy98gp474o" ].

Definition MPL_TERMS : list string :=
  [ "Movit"; "Movit Products"; "MPL"; "Radiant"; "Movit Uganda"
  ; "Movit East Africa"; "cosmetics"; "personal care"; "hair care"
  ; "skin care"; "beauty industry" ].

Definition EAST_AF_HINTS : list string :=
  [ "Uganda"; "Kenya"; "Tanzania"; "Rwanda"; "Burundi"; "DRC"; "Zambia"
  ; "South Sudan"; "Malawi"; "Mozambique"; "Angola"; "Zimbabwe"; "Nigeria"
  ; "East Africa"; "COMESA"; "EAC" ].

Definition GLOBAL_SUPPLY_HINTS : list string :=
  [ "Suez Canal"; "Panama Canal"; "Strait of Hormuz"; "Red Sea"
  ; "Cape of Good Hope"; "port congestion"; "port strike"; "rail strike"
  ; "truckers strike"; "freight rates"; "container shortage"; "IMO 2020"
  ; "shipping disruption"; "supply chain disruption"; "Houthi"; "piracy"
  ; "Maersk"; "MSC"; "CMA CGM"; "Evergreen"; "Hapag-Lloyd"; "Brent"; "WTI"
  ; "naphtha"; "paraffin"; "propane"; "butane"; "natural gas"; "feedstock"
  ; "oleochemicals"; "palm oil"; "palm kernel oil"; "PKO"; "coconut oil"
  ; "tallow"; "ethanol"; "isopropanol"; "propylene"; "ethylene"; "benzene"
  ; "export ban"; "export curbs"; "sanctions"; "REACH"; "IFRA"
  ; "EU cosmetics regulation"; "US FDA cosmetics"; "Kenya Bureau of Standards"
  ; "UNBS"; "tax"; "levy"; "tariff"; "VAT" ].

Definition MATERIALS : list string :=
  [ "LPG GAS"; "SOLVENT BLUE"; "POLYSORBATE 20"
  ; "AFTER SHAVE BALM 250ML CONTAINER"; "RESIZED MOVIT BRANDED WOOVEN BAGS"
  ; "EXTRA NEUTRAL SPIRIT (PREMIUM)"; "KANZIRONZIRO"
  ; "RADIANT NEUTRALISING SHAMPOO 500ML-BOXES"; "PHOSPHERIC ACID"
  ; "CARBOPOL 990"; "EUPERLAN PK 771BENZ (UFABLEND MPL)"
  ; "ANTI HAIR LOSS SHAMPOO"; "ARGAN OIL HAIR MASK RM"; "BLENDING WAX"
  ; "WHITE MIRACLE -862681"; "SILKY CREAM- 713651"
  ; "AVOCADO /SHEA BUTTER FRAGRANCE -1022276"; "ORCHID PERFUME (1022222)"
  ; "CETOSTEARYL ALCOHOL (LANETTE  D )"; "HAIR OIL-RM"; "OLIVE TREATMENT"
  ; "COCOA BUTTER GLOW BODY OIL"; "EGG TREATMENT"; "TINOGARD TL"
  ; "GLYCERINE  OIL"; "AEROSOL PROPELLANT GAS"; "RELAXING SHEEN"
  ; "WHITE OIL/ LIQUID PARAFFIN LIGHT"; "ACETONE"; "VISCUP 160"; "SALIETHANOL"
  ; "ELEMENT-701358"; "CRODOMOL STS"; "KERAVIS"; "CETEARETH 25"
  ; "SODIUM BENZOATE POWDER BP 2017"; "OLIVE CARE E_1518341"; "PVP K 30"
  ; "BEHENTRIMONIUM CHLORIDE"; "PARAPHENYL DIAMINE"; "METHYL PARABEN B.P"
  ; "CETIOL AB"; "DEHYQUAT  F 75"; "CREMOPHOR A6/EMULGADE A6"
  ; "LUVIQUAT PQ 11AT 1"; "PLANTACARE 818 UP"; "LEMON FRAGRANCE"
  ; "ORANGE GEL (250125)"; "NOIR VERT 215372"; "ZANAHEM PERFUME (201009)"
  ; "EFF 261049 SHIELDED"; "COLANYL YELLOW G 132-ZA"; "TRIETHANOLAMINE"
  ; "SLES 70%(TEXAPON) SODIUM LAURYL ETHER SU"; "RT79948 LEMON SOAP"
  ; "JINTINT YELLOW 3930 EP"; "HYDROGEN PEROXIDE 50%"; "THIOGLYCOLIC ACID 99%"
  ; "REFINED SULPHUR POWDER"; "XIAMETER (PMX 245)/SK.SF 1202" ].

Definition GLOBAL_PORTS : list string :=
  [ "Shanghai"; "Ningbo"; "Shenzhen"; "Tianjin"; "Qingdao"; "Busan"
  ; "Singapore"; "Port Klang"; "Tanjung Pelepas"; "Nhava Sheva"; "Mundra"
  ; "Jebel Ali"; "Rotterdam"; "Antwerp"; "Hamburg"; "Felixstowe"; "Durban"
  ; "Mombasa"; "Dar es Salaam"; "Djibouti"; "Walvis Bay" ].

(** The [SYNONYMS] dictionary, as a finite map from material to aliases. *)
Definition SYNONYMS : gmap string (list string) :=
  list_to_map
  [ ("LPG GAS",
      [ "liquefied petroleum gas"; "propane"; "butane"; "autogas" ])
  ; ("SLES 70%(TEXAPON) SODIUM LAURYL ETHER SU",
      [ "SLES 70"; "sodium laureth sulfate"; "texapon"; "lauryl ether sulfate" ])
  ; ("PHOSPHERIC ACID",
      [ "phosphoric acid"; "H3PO4" ])
  ; ("CETOSTEARYL ALCOHOL (LANETTE  D )",
      [ "cetearyl alcohol"; "cetostearyl alcohol"; "lanette d" ])
  ; ("TRIETHANOLAMINE",
      [ "TEA"; "triethanolamine" ])
  ; ("ACETONE",
      [ "propanone" ])
  ; ("HYDROGEN PEROXIDE 50%",
      [ "H2O2 50%"; "hydrogen peroxide solution" ])
  ; ("THIOGLYCOLIC ACID 99%",
      [ "mercaptoacetic acid"; "thioglycolic acid" ])
  ; ("REFINED SULPHUR POWDER",
      [ "sulfur powder"; "sulphur powder" ])
  ; ("AEROSOL PROPELLANT GAS",
      [ "propellant gas"; "aerosol propellant"; "LPG propellant" ])
  ; ("WHITE OIL/ LIQUID PARAFFIN LIGHT",
      [ "white mineral oil"; "liquid paraffin"; "white mineral oil light" ])
  ; ("CARBOPOL 990",
      [ "carbomer 990"; "carbopol polymer" ])
  ; ("CETEARETH 25",
      [ "ceteareth-25" ])
  ; ("BEHENTRIMONIUM CHLORIDE",
      [ "BTAC"; "behentrimonium chloride" ])
  ; ("SODIUM BENZOATE POWDER BP 2017",
      [ "sodium benzoate" ])
  ; ("PVP K 30",
      [ "polyvinylpyrrolidone k30"; "povidone k30" ])
  ; ("GLYCERINE  OIL",
      [ "glycerin"; "glycerol" ])
  ; ("POLYSORBATE 20",
      [ "tween 20"; "polyoxyethylene (20) sorbitan monolaurate" ])
  ; ("CRODOMOL STS",
      [ "cetearyl ethylhexanoate (Crodamol STS)"; "crodamol sts" ])
  ; ("PLANTACARE 818 UP",
      [ "caprylyl/capryl glucoside"; "plantacare 818" ])
  ; ("XIAMETER (PMX 245)/SK.SF 1202",
      [ "octamethyltrisiloxane"; "OMTS"; "PMX-245"; "silicone solvent" ])
  ].

End Config.

Import Text Config.

(* ===================================================================== *)
(** * Data model *)
(* ===================================================================== *)

(** A row as the fetchers build it (lines 213-221 and 256-264).  [url] and
    [published] may be [None] (GDELT's [a.get("url")]); the other fields
    are always strings. *)
Record Candidate : Type := mkCandidate {
  material : string;
  query_variant : string;
  title : string;
  url : option string;
  published : option string;
  source : string;
  summary : string
}.

(** A row after [r["score"] = ...] (line 385), or a pinned row (line 403). *)
Record Row : Type := mkRow {
  item : Candidate;
  score : Z
}.

(** One record of the data frame (lines 418-427); [Published] is a naive
    datetime, counted in microseconds from 0001-01-01 00:00:00. *)
Record Record_ : Type := mkRecord {
  Material : string;
  QueryVariant : string;
  Source : string;
  Title : string;
  Summary : string;
  URL : option string;
  Published : Z;
  Relevance : Z
}.

(* ===================================================================== *)
(** * Query expansion (lines 173-177) *)
(* ===================================================================== *)

(** [list(dict.fromkeys(qs))]: drop repeated keys, keep first occurrences. *)
Fixpoint dict_fromkeys (seen : gset string) (qs : list string) : list string :=
  match qs with
  | [] => []
  | q :: qs' =>
      if decide (q ∈ seen) then dict_fromkeys seen qs'
      else q :: dict_fromkeys ({[q]} ∪ seen) qs'
  end.

Definition expand_queries (material : string) : list string :=
  let qs := [material] ++ default [] (SYNONYMS !! material) in
  dict_fromkeys ∅ qs.

(* ===================================================================== *)
(** * Relevance score (lines 268-297) *)
(* ===================================================================== *)

(** Line 296, for given similarity, boosts and keyword flag. *)
Definition penalty_of (generic : bool) : Q := if generic then 12%Q else 0%Q.

Definition final_score (base mpl_boost east_boost global_boost : Q)
    (generic : bool) : Z :=
  py_int (Qmin 100
            (base + mpl_boost + east_boost + global_boost - penalty_of generic))%Q.

Section Scoring.

(** [fuzz.token_set_ratio] and [fuzz.partial_ratio] of rapidfuzz. *)
Variable token_set_ratio : string -> string -> Q.
Variable partial_ratio : string -> string -> Q.

Definition text_l_of (row : Candidate) : string :=
  lower (title row ++ " " ++ summary row).

Definition base_of (row : Candidate) : Q :=
  fold_left (fun base t => Qmax base (token_set_ratio (lower t) (text_l_of row)))
            (expand_queries (material row)) 0%Q.

Definition mpl_boost_of (row : Candidate) : Q :=
  fold_left (fun b t => Qmax b ((6 # 10) * partial_ratio (lower t) (text_l_of row))%Q)
            MPL_TERMS 0%Q.

Definition east_boost_of (row : Candidate) : Q :=
  fold_left (fun b rgn => Qmax b ((35 # 100) * partial_ratio (lower rgn) (text_l_of row))%Q)
            EAST_AF_HINTS 0%Q.

Definition global_boost_of (row : Candidate) : Q :=
  fold_left (fun b kw => Qmax b ((35 # 100) * partial_ratio (lower kw) (text_l_of row))%Q)
            (GLOBAL_SUPPLY_HINTS ++ GLOBAL_PORTS) 0%Q.

Definition generic_of (row : Candidate) : bool :=
  existsb (fun k => contains k (text_l_of row))
          [ "celebrity"; "football"; "movie"; "lottery"; "gossip" ].

Definition relevance_score (row : Candidate) : Z :=
  final_score (base_of row) (mpl_boost_of row) (east_boost_of row)
              (global_boost_of row) (generic_of row).

End Scoring.

(* ===================================================================== *)
(** * Fingerprint and deduplication (lines 167-171 and 299-314) *)
(* ===================================================================== *)

Section Dedup.

(** [hashlib.sha256(data).hexdigest()] *)
Variable sha256_hexdigest : string -> string.
Variable token_set_ratio : string -> string -> Q.

(** The bytes fed to the hash object by the successive [h.update] calls. *)
Definition hashed_bytes (parts : list (option string)) : string :=
  fold_left (fun fed p => (fed ++ or_empty p)%string) parts "".

Definition hash_id (parts : list (option string)) : string :=
  substring 0 16 (sha256_hexdigest (hashed_bytes parts)).

(** Line 303. *)
Definition hid_of (r : Row) : string :=
  hash_id [url (item r); Some (title (item r))].

(** Lines 307-310: is some kept row's title close to the title of [r]? *)
Definition near_dup (r : Row) (keep : list Row) : bool :=
  existsb (fun u => Qle_bool 92%Q
                      (token_set_ratio (lower (title (item r)))
                                       (lower (title (item u)))))
          keep.

(** One iteration of the loop of line 302 on the state [(seen, keep)]. *)
Definition dedup_step (st : gset string * list Row) (r : Row)
    : gset string * list Row :=
  let '(seen, keep) := st in
  let hid := hid_of r in
  if decide (hid ∈ seen) then (seen, keep)
  else if near_dup r keep then (seen, keep)
  else ({[hid]} ∪ seen, keep ++ [r]).

Definition dedup_loop (rows : list Row) (st : gset string * list Row)
    : gset string * list Row :=
  fold_left dedup_step rows st.

Definition deduplicate (rows : list Row) : list Row :=
  snd (dedup_loop rows (∅, [])).

End Dedup.

(* ===================================================================== *)
(** * Date normalisation (lines 316-335) *)
(* ===================================================================== *)

(** [datetime.max], in microseconds from 0001-01-01 00:00:00:
    the last microsecond of 9999-12-31 (day 3652059). *)
Definition DATETIME_MAX : Z := 3652059 * 86400 * 1000000 - 1.

Section DateNormalizer.

(** [datetime.strptime(s, fmt)]: the parsed naive datetime, or [None]
    where it raises. *)
Variable strptime : string -> string -> option Z.

(** The UTC offset of [LOCAL_TZ] (Africa/Kampala) at a UTC instant, in
    microseconds. *)
Variable utcoffset : Z -> Z.

Definition fmts : list string :=
  [ "%a, %d %b %Y %H:%M:%S %Z"
  ; "%Y%m%d%H%M%S"
  ; "%Y-%m-%dT%H:%M:%SZ"
  ; "%Y-%m-%d %H:%M:%S" ].

(** [dt.replace(tzinfo=timezone.utc).astimezone(LOCAL_TZ).replace(tzinfo=None)];
    [None] where the local wall clock leaves the range of [datetime] and
    [astimezone] raises [OverflowError]. *)
Definition to_local_naive (dt : Z) : option Z :=
  let local := (dt + utcoffset dt)%Z in
  if (0 <=? local)%Z && (local <=? DATETIME_MAX)%Z then Some local else None.

(** The body of the [try] of lines 330-332; [None] stands for the
    [except Exception: continue]. *)
Definition try_format (s fmt : string) : option Z :=
  match strptime s fmt with
  | Some dt => to_local_naive dt
  | None => None
  end.

(** The loop of line 329. *)
Fixpoint first_format (s : string) (formats : list string) : option Z :=
  match formats with
  | [] => None
  | fmt :: rest =>
      match try_format s fmt with
      | Some d => Some d
      | None => first_format s rest
      end
  end.

Definition normalize_date (s : option string) : option Z :=
  if falsy s then None else first_format (or_empty s) fmts.

(** Line 417: [normalize_date(...) or today_local().replace(tzinfo=None)]. *)
Definition pub_dt_of (s : option string) (now : Z) : Z :=
  match normalize_date s with
  | Some d => d
  | None => now
  end.

End DateNormalizer.

(* ===================================================================== *)
(** * HTTP retrieval with retries (lines 179-194) *)
(* ===================================================================== *)

(** What one call of [requests.get] does. *)
Inductive Outcome : Type :=
| Response (status_code : Z) (text : string)
| Raises.

(** What the helper does to the outside world. *)
Inductive Event : Type :=
| EvGet (url : string)
| EvSleep (seconds : Q).

(** The state threaded through the helper: how many requests were sent, how
    many random numbers were drawn, and the events so far, oldest first. *)
Record Net : Type := mkNet {
  sent : nat;
  drawn : nat;
  events : list Event
}.

Section Http.

(** The outcome of the [n]-th call of [requests.get] of the run, and the
    [n]-th value of [random.random()]. *)
Variable network : nat -> Outcome.
Variable random_random : nat -> Q.

Definition requests_get (url : string) (st : Net) : Outcome * Net :=
  (network (sent st),
   {| sent := S (sent st); drawn := drawn st;
      events := events st ++ [EvGet url] |}).

(** Lines 179-181. *)
Definition backoff_sleep (attempt : nat) (st : Net) : Net :=
  let '(lo, hi) := RETRY_BACKOFF in
  let u := random_random (drawn st) in
  {| sent := sent st; drawn := S (drawn st);
     events := events st ++
               [EvSleep ((lo + (hi - lo) * u) * inject_Z (Z.of_nat attempt))%Q] |}.

(** The [try] of lines 186-191: the response when the call returns with
    status 200, nothing when it returns another status or raises. *)
Definition returned (o : Outcome) : option string :=
  match o with
  | Response status_code body =>
      if (status_code =? 200)%Z then Some body else None
  | Raises => None
  end.

(** The loop of line 185 over the remaining attempt numbers. *)
Fixpoint safe_get_loop (url : string) (attempts : list nat) (st : Net)
    : option string * Net :=
  match attempts with
  | [] => (None, st)
  | attempt :: rest =>
      let '(o, st1) := requests_get url st in
      match returned o with
      | Some r => (Some r, st1)
      | None =>
          let st2 := if (attempt <? RETRY_ATTEMPTS)%nat
                     then backoff_sleep attempt st1 else st1 in
          safe_get_loop url rest st2
      end
  end.

Definition safe_get (url : string) (st : Net) : option string * Net :=
  safe_get_loop url (seq 1 RETRY_ATTEMPTS) st.

End Http.

(* ===================================================================== *)
(** * The run (lines 374-429) *)
(* ===================================================================== *)

(** The sort order of line 429: [Material] ascending, then [Relevance]
    descending, then [Published] descending. *)
Definition record_leb (a b : Record_) : bool :=
  match String.compare (Material a) (Material b) with
  | Lt => true
  | Gt => false
  | Eq =>
      if (Relevance b <? Relevance a)%Z then true
      else if (Relevance a <? Relevance b)%Z then false
      else (Published b <=? Published a)%Z
  end.

(** [DataFrame.sort_values] on several columns: a stable sort. *)
Fixpoint sort_insert (x : Record_) (l : list Record_) : list Record_ :=
  match l with
  | [] => [x]
  | y :: l' => if record_leb x y then x :: l else y :: sort_insert x l'
  end.

Fixpoint sort_values (l : list Record_) : list Record_ :=
  match l with
  | [] => []
  | x :: l' => sort_insert x (sort_values l')
  end.

Section Run.

Variable token_set_ratio : string -> string -> Q.
Variable partial_ratio : string -> string -> Q.
Variable sha256_hexdigest : string -> string.
Variable strptime : string -> string -> option Z.
Variable utcoffset : Z -> Z.

(** The fetchers of lines 196-265 for one material; [None] where the call
    raises, which the [except] of line 388 turns into no rows. *)
Variable fetch_google_news : string -> option (list Candidate).
Variable fetch_gdelt : string -> option (list Candidate).

(** [fetch_page_meta] (lines 338-354), which never raises. *)
Variable fetch_page_meta : string -> string * string.

(** [today_local().replace(tzinfo=None)] as read while the [i]-th row is
    handled, and the same instant formatted by [strftime]. *)
Variable today_local : nat -> Z.
Variable today_stamp : nat -> string.

(** Lines 384-386. *)
Definition score_rows (rows : list Candidate) : list Row :=
  map (fun r => {| item := r; score := relevance_score token_set_ratio partial_ratio r |})
      rows.

Definition above_floor (rows : list Row) : list Row :=
  List.filter (fun r => (MIN_RELEVANCE <=? score r)%Z) rows.

(** Lines 380-389 for one material. *)
Definition material_rows (mat : string) : list Row :=
  match fetch_google_news mat, fetch_gdelt mat with
  | Some rss_rows, Some gd_rows => above_floor (score_rows (rss_rows ++ gd_rows))
  | _, _ => []
  end.

(** Lines 395-404. *)
Definition pinned_row (i : nat) (u : string) : Row :=
  let '(page_title, desc) := fetch_page_meta u in
  {| item := {| material := "MULTI / GLOBAL";
                query_variant := "Pinned";
                title := if falsy (Some page_title)
                         then "Pinned: External insight" else page_title;
                url := Some u;
                published := Some (today_stamp i);
                source := "Pinned";
                summary := desc |};
     score := 100 |}.

Fixpoint pinned_rows_from (i : nat) (urls : list string) : list Row :=
  match urls with
  | [] => []
  | u :: urls' => pinned_row i u :: pinned_rows_from (S i) urls'
  end.

(** [all_rows] before line 408, for given materials and pinned links. *)
Definition pooled_rows (materials pinned : list string) : list Row :=
  flat_map material_rows materials ++ pinned_rows_from 0 pinned.

(** Lines 416-427. *)
Definition to_record (i : nat) (r : Row) : Record_ :=
  {| Material := material (item r);
     QueryVariant := query_variant (item r);
     Source := source (item r);
     Title := title (item r);
     Summary := summary (item r);
     URL := url (item r);
     Published := pub_dt_of strptime utcoffset (published (item r)) (today_local i);
     Relevance := score r |}.

Fixpoint to_records_from (i : nat) (rows : list Row) : list Record_ :=
  match rows with
  | [] => []
  | r :: rows' => to_record i r :: to_records_from (S i) rows'
  end.

(** The data frame after line 429; [None] is the early return of line 412. *)
Definition run (materials pinned : list string) : option (list Record_) :=
  let all_rows :=
    deduplicate sha256_hexdigest token_set_ratio (pooled_rows materials pinned) in
  match all_rows with
  | [] => None
  | _ :: _ => Some (sort_values (to_records_from 0 all_rows))
  end.

Definition main : option (list Record_) := run MATERIALS PINNED_SIGNALS.

End Run.

(* ===================================================================== *)
(** * Text cleaning and summaries (lines 145-165) *)
(* ===================================================================== *)

(** The ASCII characters that [\s] matches and that [str.strip] removes:
    tab to carriage return, the four separators 28 to 31, and the space. *)
Definition py_isspace (c : ascii) : bool :=
  let n := nat_of_ascii c in
  ((9 <=? n)%nat && (n <=? 13)%nat) || ((28 <=? n)%nat && (n <=? 32)%nat).

(** [re.sub(r"\s+", " ", x)], scanning [x] from the left; [in_run] says
    that the character before was white space already. *)
Fixpoint sub_spaces (in_run : bool) (x : string) : string :=
  match x with
  | EmptyString => EmptyString
  | String c x' =>
      if py_isspace c
      then if in_run then sub_spaces true x'
           else String " " (sub_spaces true x')
      else String c (sub_spaces false x')
  end.

(** [s.lstrip()] and [s.rstrip()]. *)
Fixpoint lstrip (s : string) : string :=
  match s with
  | EmptyString => EmptyString
  | String c s' => if py_isspace c then lstrip s' else s
  end.

Fixpoint rstrip (s : string) : string :=
  match s with
  | EmptyString => EmptyString
  | String c s' =>
      match rstrip s' with
      | EmptyString => if py_isspace c then EmptyString else String c EmptyString
      | String d t => String c (String d t)
      end
  end.

(** [s.strip()] *)
Definition strip (s : string) : string := rstrip (lstrip s).

(** U+2026, the horizontal ellipsis, in UTF-8. *)
Definition ELLIPSIS : string :=
  String "226"%char (String "128"%char (String "166"%char EmptyString)).

Section TextCleaning.

(** [html.unescape], [BeautifulSoup(_, "html.parser").get_text(" ")] and
    [re.split(r"(?<=[.!?])\s+", _)]. *)
Variable html_unescape : string -> string.
Variable get_text : string -> string.
Variable re_split_sentences : string -> list string.

(** Lines 145-150. *)
Definition clean_text (x : option string) : string :=
  if falsy x then ""
  else strip (sub_spaces false (html_unescape (or_empty x))).

(** The loop of lines 159-164 on the accumulated [out]. *)
Fixpoint take_sentences (max_chars : nat) (out : string) (parts : list string)
    : string :=
  match parts with
  | [] => out
  | p :: rest =>
      if falsy (Some p) then take_sentences max_chars out rest
      else if (max_chars <? String.length out + String.length p + 1)%nat then out
      else take_sentences max_chars (out ++ (p ++ " ")) rest
  end.

(** Lines 152-165. *)
Definition summarize_text (html_or_text : option string) (max_chars : nat)
    : string :=
  let text := clean_text (Some (get_text (or_empty html_or_text))) in
  if (String.length text <=? max_chars)%nat then text
  else
    let out := take_sentences max_chars "" (re_split_sentences text) in
    if falsy (Some (strip out))
    then (substring 0 max_chars text ++ ELLIPSIS)%string
    else strip out.

End TextCleaning.

(** [s.split()]: the maximal runs of characters that are not white space,
    [cur] being the run read so far. *)
Fixpoint split_from (cur : string) (s : string) : list string :=
  match s with
  | EmptyString =>
      match cur with
      | EmptyString => []
      | String _ _ => [cur]
      end
  | String c s' =>
      if py_isspace c
      then match cur with
           | EmptyString => split_from "" s'
           | String _ _ => cur :: split_from "" s'
           end
      else split_from (cur ++ String c "") s'
  end.

Definition py_split (s : string) : list string := split_from "" s.

(** [" ".join(l)] *)
Fixpoint join_spaces (l : list string) : string :=
  match l with
  | [] => ""
  | w :: l' =>
      match l' with
      | [] => w
      | _ :: _ => w ++ " " ++ join_spaces l'
      end
  end.

(* ===================================================================== *)
(** * The fetchers (lines 196-265) and the page metadata (lines 338-354) *)
(* ===================================================================== *)

(** [a or b] on values that may be [None] or empty. *)
Definition py_or (a b : option string) : option string :=
  if falsy a then b else a.

(** One entry of a parsed feed; [None] is a key that the entry lacks. *)
Record Entry : Type := mkEntry {
  e_title : option string;
  e_link : option string;
  e_published : option string;
  e_updated : option string;
  e_summary : option string
}.

(** One article of a GDELT answer; [None] is a missing or null value. *)
Record Article : Type := mkArticle {
  a_title : option string;
  a_url : option string;
  a_seendate : option string;
  a_publishedDate : option string;
  a_seendescription : option string;
  a_sourceCommonName : option string
}.

(** What [r.json()] and line 251 make of a response body: [r.json()]
    raises; or the articles can be listed (none when the key is absent); or
    the body is JSON of another shape and line 251 raises. *)
Inductive JsonBody : Type :=
| JsonRaises
| JsonArticles (articles : list Article)
| JsonMalformed.

(** The character [U+0022]. *)
Definition dquote : string := String "034"%char EmptyString.

(** [sep.join(l)] *)
Fixpoint join_with (sep : string) (l : list string) : string :=
  match l with
  | [] => ""
  | w :: l' =>
      match l' with
      | [] => w
      | _ :: _ => w ++ sep ++ join_with sep l'
      end
  end.

Section Fetchers.

Variable html_unescape : string -> string.
Variable get_text : string -> string.
Variable re_split_sentences : string -> list string.

(** [quote_plus], [feedparser.parse(url).entries], and the [re.sub] of
    lines 209-210 that unwraps a Google redirect link. *)
Variable quote_plus : string -> string.
Variable feed_entries : string -> list Entry.
Variable unwrap_link : string -> string.

(** The network and the random generator of [safe_get], and [r.json()]. *)
Variable network : nat -> Outcome.
Variable random_random : nat -> Q.
Variable r_json : string -> JsonBody.

(** [BeautifulSoup(r.text, "html.parser")] read as lines 345-351 read it:
    the text of [<title>] if the page has one, and the first non-empty
    description; [None] where the parser raises. *)
Variable parse_page : string -> option (option string * string).

Definition context_terms : list string :=
  [ "supply"; "shortage"; "price"; "export"; "imports"; "logistics"; "shipment";
    "factory"; "plant"; "shutdown"; "strike"; "regulation"; "tariff"; "recall" ].

(** Line 203. *)
Definition q_full (q : string) : string :=
  (dquote ++ q ++ dquote ++ " (" ++ dquote)
  ++ join_with (dquote ++ " OR " ++ dquote) context_terms
  ++ (dquote ++ ")").

(** Line 204. *)
Definition rss_url (q : string) : string :=
  "https://news.google.com/rss/search?q=" ++ quote_plus (q_full q)
  ++ "&hl=en-GB&gl=GB&ceid=GB:en".

(** Lines 207-221 for one entry. *)
Definition google_row (material_ q : string) (e : Entry) : Candidate :=
  {| material := material_;
     query_variant := q;
     title := clean_text html_unescape (Some (default "" (e_title e)));
     url := Some (unwrap_link (default "" (e_link e)));
     published := Some (or_empty (py_or (Some (default "" (e_published e)))
                                        (Some (default "" (e_updated e)))));
     source := "GoogleNewsRSS";
     summary := summarize_text html_unescape get_text re_split_sentences
                               (Some (default "" (e_summary e))) 280 |}.

(** Lines 196-222. *)
Definition fetch_google_news (material_ : string) : list Candidate :=
  flat_map
    (fun q => map (google_row material_ q)
                  (firstn MAX_ITEMS_PER_MATERIAL_PER_SOURCE (feed_entries (rss_url q))))
    (expand_queries material_).

Definition gdelt_url : string := "https://api.gdeltproject.org/api/v2/doc/doc".

(** Lines 252-264 for one article. *)
Definition gdelt_row (material_ q : string) (a : Article) : Candidate :=
  {| material := material_;
     query_variant := q;
     title := clean_text html_unescape (a_title a);
     url := a_url a;
     published := py_or (a_seendate a) (a_publishedDate a);
     source := "GDELT";
     summary := clean_text html_unescape
                  (py_or (py_or (a_seendescription a) (a_sourceCommonName a))
                         (Some "")) |}.

(** The loop of line 235; [None] where line 251 raises.  The query and the
    time window travel in [params], which only the network sees. *)
Fixpoint gdelt_loop (material_ : string) (queries : list string)
    (out : list Candidate) (st : Net) : option (list Candidate) * Net :=
  match queries with
  | [] => (Some out, st)
  | q :: rest =>
      let '(r, st1) := safe_get network random_random gdelt_url st in
      match r with
      | None => gdelt_loop material_ rest out st1
      | Some body =>
          match r_json body with
          | JsonRaises => gdelt_loop material_ rest out st1
          | JsonArticles articles =>
              gdelt_loop material_ rest
                (out ++ map (gdelt_row material_ q)
                            (firstn MAX_ITEMS_PER_MATERIAL_PER_SOURCE articles))
                st1
          | JsonMalformed => (None, st1)
          end
      end
  end.

(** Lines 231-235: the queries of one material. *)
Definition gdelt_queries (base_variants : list string) : option (list string) :=
  match base_variants with
  | [] => None
  | first :: _ =>
      let extra_queries :=
        [ (first ++ " supply OR shortage OR export OR import")%string;
          (first ++ " price OR tariff OR regulation OR logistics")%string ] in
      Some (dict_fromkeys ∅ (base_variants ++ extra_queries))
  end.

(** Lines 224-265; [None] where the function raises. *)
Definition fetch_gdelt (material_ : string) (st : Net)
    : option (list Candidate) * Net :=
  match gdelt_queries (expand_queries material_) with
  | None => (None, st)
  | Some queries => gdelt_loop material_ queries [] st
  end.

Definition PINNED_FALLBACK : string * string := ("Pinned: External insight", "").

(** Lines 338-354. *)
Definition fetch_page_meta (u : string) (st : Net) : (string * string) * Net :=
  let '(r, st1) := safe_get network random_random u st in
  match r with
  | None => (PINNED_FALLBACK, st1)
  | Some body =>
      match parse_page body with
      | None => (PINNED_FALLBACK, st1)
      | Some (page_title, desc) =>
          ((clean_text html_unescape
              (Some (default "Pinned: External insight" page_title)),
            clean_text html_unescape (Some desc)), st1)
      end
  end.

End Fetchers.

(* ===================================================================== *)
(** * The alert text (lines 365-371) *)
(* ===================================================================== *)

Definition BULLET : string :=
  String "226"%char (String "128"%char (String "162"%char EmptyString)).

Definition EM_DASH : string :=
  String "226"%char (String "128"%char (String "148"%char EmptyString)).

Definition newline : string := String "010"%char EmptyString.

Definition ALERT_HEADER : string :=
  ("*MPL Material News " ++ EM_DASH ++ " Top Global Signals*")%string.

(** The sort order of line 367: [Relevance] descending, then [Published]
    descending. *)
Definition alert_leb (a b : Record_) : bool :=
  if (Relevance b <? Relevance a)%Z then true
  else if (Relevance a <? Relevance b)%Z then false
  else (Published b <=? Published a)%Z.

Fixpoint alert_insert (x : Record_) (l : list Record_) : list Record_ :=
  match l with
  | [] => [x]
  | y :: l' => if alert_leb x y then x :: l else y :: alert_insert x l'
  end.

(** [df.sort_values(["Relevance","Published"], ascending=[False, False])],
    a stable sort as in line 429. *)
Fixpoint alert_sort (l : list Record_) : list Record_ :=
  match l with
  | [] => []
  | x :: l' => alert_insert x (alert_sort l')
  end.

(** A cell of the [URL] column inside an f-string. *)
Definition py_str (x : option string) : string :=
  match x with
  | Some s => s
  | None => "None"
  end.

Section Alerts.

(** [strftime("%Y-%m-%d %H:%M")] of a [Published] cell. *)
Variable strftime : Z -> string.

(** Line 367. *)
Definition alert_sample (df : list Record_) (limit : nat) : list Record_ :=
  firstn limit (alert_sort df).

(** Lines 369-370; [Published] is never null in a frame built by [main]. *)
Definition alert_line (r : Record_) : string :=
  (BULLET ++ " *" ++ Material r ++ "* " ++ EM_DASH ++ " " ++ Title r
   ++ "  (" ++ strftime (Published r) ++ ")" ++ newline
   ++ "  " ++ py_str (URL r))%string.

Definition format_alert (df : list Record_) (limit : nat) : string :=
  join_with newline (ALERT_HEADER :: map alert_line (alert_sample df limit)).

End Alerts.

(* ===================================================================== *)
(** * Reference instances of the library functions *)
(* ===================================================================== *)

(** Concrete functions for the parameters above.  The similarity ratios
    follow the definitions rapidfuzz documents: [ratio] is the normalised
    Indel similarity, [partial_ratio] the best [ratio] of the shorter string
    against a window of the longer one, [token_set_ratio] the comparison of
    the sorted token sets.  The digest, the parser and the clock are small
    stand-ins.  The theorems below are proved for every instance of the
    parameters that meets their hypotheses; these instances show that the
    hypotheses can be met and let the definitions be evaluated. *)
Module Ref.

(** Length of a longest common subsequence. *)
Fixpoint lcs (a b : list ascii) : nat :=
  match a with
  | [] => 0
  | x :: a' =>
      (fix against (b : list ascii) : nat :=
         match b with
         | [] => 0
         | y :: b' =>
             if Ascii.eqb x y then S (lcs a' b')
             else Nat.max (lcs a' b) (against b')
         end) b
  end.

(** [100 * (total - dist) / total], and 100 for two empty strings. *)
Definition norm_similarity (dist total : nat) : Q :=
  match total with
  | O => 100%Q
  | S _ => (Z.of_nat (100 * (total - dist)) # Pos.of_nat total)%Q
  end.

(** The same length by dynamic programming.  [lcs_row x b prev] turns the
    row of [a'] (its [j]-th entry is the value for [a'] and [b] without its
    first [j] characters) into the row of [x :: a']. *)
Fixpoint lcs_row (x : ascii) (b : list ascii) (prev : list nat) : list nat :=
  match b, prev with
  | y :: b', up :: prev' =>
      let rest := lcs_row x b' prev' in
      (if Ascii.eqb x y then S (hd 0 prev') else Nat.max up (hd 0 rest)) :: rest
  | _, _ => [0]
  end.

Definition lcs_table (a b : list ascii) : list nat :=
  fold_right (fun x prev => lcs_row x b prev) (repeat 0 (S (List.length b))) a.

Definition lcs_fast (a b : list ascii) : nat := hd 0 (lcs_table a b).

Definition indel_distance (a b : list ascii) : nat :=
  List.length a + List.length b - 2 * lcs_fast a b.

Definition ratio_chars (a b : list ascii) : Q :=
  norm_similarity (indel_distance a b) (List.length a + List.length b).

Definition Qmax_list (l : list Q) : Q := fold_left Qmax l 0%Q.

(** The best [ratio] of [needle] against the windows of its own length. *)
Definition best_window (needle hay : list ascii) : Q :=
  let n := List.length needle in
  Qmax_list
    (map (fun i => ratio_chars needle (firstn n (skipn i hay)))
         (seq 0 (List.length hay - n + 1))).

Definition partial_ratio (s1 s2 : string) : Q :=
  let a := chars s1 in
  let b := chars s2 in
  match a, b with
  | [], [] => 100%Q
  | [], _ | _, [] => 0%Q
  | _, _ =>
      if (List.length a <=? List.length b)%nat
      then best_window a b else best_window b a
  end.

Definition is_space (c : ascii) : bool :=
  let n := nat_of_ascii c in
  ((9 <=? n)%nat && (n <=? 13)%nat) || (n =? 32)%nat.

(** [s.split()]: the maximal runs of characters that are not white space. *)
Fixpoint split_ws (cur : list ascii) (s : list ascii) : list (list ascii) :=
  match s with
  | [] => match cur with [] => [] | _ => [rev cur] end
  | c :: s' =>
      if is_space c
      then match cur with
           | [] => split_ws [] s'
           | _ => rev cur :: split_ws [] s'
           end
      else split_ws (c :: cur) s'
  end.

Fixpoint string_of_chars (l : list ascii) : string :=
  match l with
  | [] => EmptyString
  | c :: l' => String c (string_of_chars l')
  end.

Definition tokens (s : string) : list string :=
  map string_of_chars (split_ws [] (chars s)).

(** Insertion of a token into a sorted list without repetition. *)
Fixpoint token_insert (t : string) (l : list string) : list string :=
  match l with
  | [] => [t]
  | u :: l' =>
      match String.compare t u with
      | Lt => t :: l
      | Eq => l
      | Gt => u :: token_insert t l'
      end
  end.

Definition token_set (s : string) : list string :=
  fold_right token_insert [] (tokens s).

Definition mem (t : string) (l : list string) : bool :=
  existsb (String.eqb t) l.

Fixpoint join (l : list string) : string :=
  match l with
  | [] => ""
  | [t] => t
  | t :: l' => t ++ " " ++ join l'
  end.

Definition token_set_ratio (s1 s2 : string) : Q :=
  let ta := token_set s1 in
  let tb := token_set s2 in
  let sect := List.filter (fun t => mem t tb) ta in
  let diff_ab := List.filter (fun t => negb (mem t tb)) ta in
  let diff_ba := List.filter (fun t => negb (mem t ta)) tb in
  match ta, tb with
  | [], _ | _, [] => 0%Q
  | _, _ =>
      match sect, diff_ab, diff_ba with
      | _ :: _, [], _ | _ :: _, _, [] => 100%Q
      | _, _, _ =>
          let ab := chars (join diff_ab) in
          let ba := chars (join diff_ba) in
          let sect_len := String.length (join sect) in
          let gap := match sect_len with O => 0 | S _ => 1 end in
          let sect_ab_len := sect_len + gap + List.length ab in
          let sect_ba_len := sect_len + gap + List.length ba in
          let result :=
            norm_similarity (indel_distance ab ba) (sect_ab_len + sect_ba_len) in
          match sect_len with
          | O => result
          | S _ =>
              Qmax result
                (Qmax (norm_similarity (gap + List.length ab) (sect_len + sect_ab_len))
                      (norm_similarity (gap + List.length ba) (sect_len + sect_ba_len)))
          end
      end
  end.

(** A stand-in digest: two hexadecimal digits per input byte. *)
Definition hex_digit (n : nat) : ascii :=
  nth n (chars "0123456789abcdef") "0"%char.

Fixpoint hexdigest (s : string) : string :=
  match s with
  | EmptyString => EmptyString
  | String c s' =>
      let n := nat_of_ascii c in
      String (hex_digit (n / 16)) (String (hex_digit (n mod 16)) (hexdigest s'))
  end.

(** 2023-01-02 10:00:00, in microseconds from 0001-01-01 00:00:00
    (2023-01-02 is day 738522). *)
Definition JAN_2_2023_10H : Z := ((738522 - 1) * 86400 + 10 * 3600) * 1000000.

(** 9999-12-31 23:00:00, one hour before the end of [datetime]'s range. *)
Definition DEC_31_9999_23H : Z := ((3652059 - 1) * 86400 + 23 * 3600) * 1000000.

(** A stand-in parser that knows three timestamps; on them it answers as
    [datetime.strptime] does, each string matching one format only. *)
Definition strptime (s fmt : string) : option Z :=
  if String.eqb s "Mon, 02 Jan 2023 10:00:00 GMT"
     && String.eqb fmt "%a, %d %b %Y %H:%M:%S %Z"
  then Some JAN_2_2023_10H
  else if String.eqb s "20230102100000" && String.eqb fmt "%Y%m%d%H%M%S"
  then Some JAN_2_2023_10H
  else if String.eqb s "9999-12-31 23:00:00" && String.eqb fmt "%Y-%m-%d %H:%M:%S"
  then Some DEC_31_9999_23H
  else None.

(** Africa/Kampala today: three hours ahead of UTC, no daylight saving. *)
Definition utcoffset (_ : Z) : Z := 3 * 3600 * 1000000.

End Ref.

(* ===================================================================== *)
(** * Facts about [py_int], [Qmin] and [Qmax] *)
(* ===================================================================== *)

Lemma py_int_nonneg (x : Q) : (0 <= x)%Q -> (0 <= py_int x)%Z.
Proof.
  unfold py_int, Qle. simpl. intros H.
  apply Z.quot_pos; lia.
Qed.

Lemma py_int_floor (x : Q) : (0 <= x)%Q -> py_int x = Qfloor x.
Proof.
  destruct x as [n d]. unfold py_int, Qfloor, Qle. simpl. intros H.
  apply Z.quot_div_nonneg; lia.
Qed.

Lemma py_int_ceiling (x : Q) : (x <= 0)%Q -> py_int x = Qceiling x.
Proof.
  destruct x as [n d]. unfold py_int, Qceiling, Qfloor, Qopp, Qle. simpl.
  intros H.
  replace n with (- (- n))%Z at 1 by lia.
  rewrite Z.quot_opp_l by lia.
  f_equal. apply Z.quot_div_nonneg; lia.
Qed.


Lemma py_int_mono (x y : Q) : (x <= y)%Q -> (py_int x <= py_int y)%Z.
Proof.
  intros L. destruct (Qlt_le_dec x 0) as [Hx | Hx], (Qlt_le_dec y 0) as [Hy | Hy].
  - rewrite !py_int_ceiling by now apply Qlt_le_weak.
    now apply Qceiling_resp_le.
  - rewrite (py_int_ceiling x) by now apply Qlt_le_weak.
    pose proof (py_int_nonneg y Hy).
    assert (Qceiling x <= Qceiling 0)%Z
      by (apply Qceiling_resp_le; now apply Qlt_le_weak).
    change (Qceiling 0) with 0%Z in *. lia.
  - exfalso. apply (Qlt_irrefl 0).
    apply Qle_lt_trans with y; [ | exact Hy ].
    now apply Qle_trans with x.
  - rewrite !py_int_floor by assumption. now apply Qfloor_resp_le.
Qed.

Lemma py_int_inject (z : Z) : py_int (inject_Z z) = z.
Proof. unfold py_int. simpl. apply Z.quot_1_r. Qed.



(** The accumulating maximum of the scoring loops. *)
Lemma fold_Qmax_ge_init {A : Type} (f : A -> Q) (l : list A) (init : Q) :
  (init <= fold_left (fun b t => Qmax b (f t)) l init)%Q.
Proof.
  revert init. induction l as [ | t l IH]; intros init; simpl.
  - apply Qle_refl.
  - eapply Qle_trans; [ apply Q.le_max_l | apply IH ].
Qed.


Lemma fold_Qmax_le_bound {A : Type} (f : A -> Q) (l : list A) (init bound : Q) :
  (init <= bound)%Q -> (forall t, In t l -> (f t <= bound)%Q) ->
  (fold_left (fun b t => Qmax b (f t)) l init <= bound)%Q.
Proof.
  revert init. induction l as [ | u l IH]; intros init Hi Hf; simpl; [ exact Hi | ].
  apply IH.
  - apply Q.max_lub; [ exact Hi | apply Hf; now left ].
  - intros t Ht. apply Hf. now right.
Qed.

(* ===================================================================== *)
(** * Facts about substrings *)
(* ===================================================================== *)





(* ===================================================================== *)
(** * The relevance score *)
(* ===================================================================== *)

Section ScoringFacts.

Variable token_set_ratio : string -> string -> Q.
Variable partial_ratio : string -> string -> Q.

(** What the proofs use of rapidfuzz: the best alignment of a needle inside
    a text that is at least as long scores at least one matching character
    out of the needle's length, as soon as the two share a character. *)
Hypothesis partial_ratio_shared_char :
  forall needle hay c,
    In c (chars needle) -> In c (chars hay) ->
    (String.length needle <= String.length hay)%nat ->
    (100 <= partial_ratio needle hay * inject_Z (Z.of_nat (String.length needle)))%Q.

Abbreviation base_of := (base_of token_set_ratio).
Abbreviation mpl_boost_of := (mpl_boost_of partial_ratio).
Abbreviation east_boost_of := (east_boost_of partial_ratio).
Abbreviation global_boost_of := (global_boost_of partial_ratio).
Abbreviation relevance_score := (relevance_score token_set_ratio partial_ratio).

(** The sum of line 296 before [min] and [int]. *)
Definition raw_score (row : Candidate) : Q :=
  (base_of row + mpl_boost_of row + east_boost_of row + global_boost_of row
   - penalty_of (generic_of row))%Q.

Lemma base_nonneg (row : Candidate) : (0 <= base_of row)%Q.
Proof. apply fold_Qmax_ge_init. Qed.

Lemma mpl_boost_nonneg (row : Candidate) : (0 <= mpl_boost_of row)%Q.
Proof. apply fold_Qmax_ge_init. Qed.

Lemma east_boost_nonneg (row : Candidate) : (0 <= east_boost_of row)%Q.
Proof. apply fold_Qmax_ge_init. Qed.

Lemma global_boost_nonneg (row : Candidate) : (0 <= global_boost_of row)%Q.
Proof. apply fold_Qmax_ge_init. Qed.





(** Whatever the two ratios return, the score is line 296 read literally
    and lies between -12 and 100. *)
Lemma relevance_score_any_ratios (row : Candidate) :
  relevance_score row = py_int (Qmin 100 (raw_score row)) /\
  (-12 <= relevance_score row <= 100)%Z.
Proof.
  assert (E : relevance_score row = py_int (Qmin 100 (raw_score row)))
    by reflexivity.
  split; [ exact E | ]. rewrite E. split.
  - change (-12)%Z with (py_int (-12)). apply py_int_mono.
    apply Q.min_glb; [ discriminate | ].
    unfold raw_score.
    pose proof (base_nonneg row). pose proof (mpl_boost_nonneg row).
    pose proof (east_boost_nonneg row). pose proof (global_boost_nonneg row).
    destruct (generic_of row); simpl; lra.
  - change 100%Z with (py_int 100). apply py_int_mono, Q.le_min_l.
Qed.


End ScoringFacts.

(* ===================================================================== *)
(** * The reference instances meet the hypotheses *)
(* ===================================================================== *)

Module RefFacts.
Import Ref.

Lemma lcs_nil_r (a : list ascii) : lcs a [] = 0%nat.
Proof. destruct a; reflexivity. Qed.








Lemma norm_similarity_nonneg (dist total : nat) :
  (0 <= norm_similarity dist total)%Q.
Proof.
  unfold norm_similarity. destruct total; [ discriminate | ].
  unfold Qle. simpl Qnum. simpl Qden. lia.
Qed.

Lemma Qmax_list_nonneg (l : list Q) : (0 <= Qmax_list l)%Q.
Proof. apply (fold_Qmax_ge_init (fun x => x)). Qed.


Lemma partial_ratio_nonneg (s1 s2 : string) : (0 <= partial_ratio s1 s2)%Q.
Proof.
  unfold partial_ratio.
  destruct (chars s1), (chars s2); try discriminate.
  destruct (_ <=? _)%nat; apply Qmax_list_nonneg.
Qed.

Lemma token_set_ratio_nonneg (s1 s2 : string) : (0 <= token_set_ratio s1 s2)%Q.
Proof.
  unfold token_set_ratio.
  destruct (token_set s1) as [ | t1 ta]; [ discriminate | ].
  destruct (token_set s2) as [ | t2 tb]; [ discriminate | ].
  set (sect := List.filter _ (t1 :: ta)).
  set (dab := List.filter _ (t1 :: ta)).
  set (dba := List.filter _ (t2 :: tb)).
  assert (R : forall d t, (0 <= norm_similarity d t)%Q)
    by apply norm_similarity_nonneg.
  assert (T : forall d t u : Q, (0 <= d)%Q -> (0 <= Qmax d (Qmax t u))%Q)
    by (intros d t u Hd; eapply Qle_trans; [ exact Hd | apply Q.le_max_l ]).
  destruct sect, dab, dba; try discriminate;
    destruct (String.length _); auto.
Qed.





End RefFacts.

(* ===================================================================== *)
(** * Deduplication *)
(* ===================================================================== *)

Section DedupFacts.

Variable sha256_hexdigest : string -> string.
Variable token_set_ratio : string -> string -> Q.

(** The definitions, unfolded once. *)
Lemma near_dup_eq (r : Row) (keep : list Row) :
  near_dup token_set_ratio r keep =
  existsb (fun u => Qle_bool 92 (token_set_ratio (lower (title (item r)))
                                                 (lower (title (item u))))) keep.
Proof. reflexivity. Qed.

Lemma dedup_step_eq (seen : gset string) (keep : list Row) (r : Row) :
  dedup_step sha256_hexdigest token_set_ratio (seen, keep) r =
  if decide (hid_of sha256_hexdigest r ∈ seen) then (seen, keep)
  else if near_dup token_set_ratio r keep then (seen, keep)
  else ({[hid_of sha256_hexdigest r]} ∪ seen, keep ++ [r]).
Proof. reflexivity. Qed.

Lemma dedup_loop_cons (r : Row) (rows : list Row) (st : gset string * list Row) :
  dedup_loop sha256_hexdigest token_set_ratio (r :: rows) st =
  dedup_loop sha256_hexdigest token_set_ratio rows
    (dedup_step sha256_hexdigest token_set_ratio st r).
Proof. reflexivity. Qed.

Lemma dedup_loop_nil (st : gset string * list Row) :
  dedup_loop sha256_hexdigest token_set_ratio [] st = st.
Proof. reflexivity. Qed.

Lemma deduplicate_eq (rows : list Row) :
  deduplicate sha256_hexdigest token_set_ratio rows =
  snd (dedup_loop sha256_hexdigest token_set_ratio rows (∅, [])).
Proof. reflexivity. Qed.

Lemma hid_of_eq (r : Row) :
  hid_of sha256_hexdigest r =
  substring 0 16 (sha256_hexdigest (or_empty (url (item r)) ++ title (item r))).
Proof. reflexivity. Qed.

Abbreviation hid_of := (hid_of sha256_hexdigest).
Abbreviation near_dup := (near_dup token_set_ratio).
Abbreviation dedup_step := (dedup_step sha256_hexdigest token_set_ratio).
Abbreviation dedup_loop := (dedup_loop sha256_hexdigest token_set_ratio).
Abbreviation deduplicate := (deduplicate sha256_hexdigest token_set_ratio).

(** The title of [r] is close to the title of [u] (line 308). *)
Definition similar (r u : Row) : Prop :=
  (92 <= token_set_ratio (lower (title (item r))) (lower (title (item u))))%Q.

(** [seen] holds exactly the fingerprints of the kept rows. *)
Definition seen_matches (st : gset string * list Row) : Prop :=
  forall h, h ∈ fst st <-> exists u, In u (snd st) /\ hid_of u = h.

Lemma near_dup_iff (r : Row) (keep : list Row) :
  near_dup r keep = true <-> exists u, In u keep /\ similar r u.
Proof.
  rewrite near_dup_eq. unfold similar. rewrite existsb_exists.
  split; intros (u & Hu & H); exists u; (split; [ exact Hu | ]);
    now apply Qle_bool_iff.
Qed.

Lemma step_exact (seen : gset string) (keep : list Row) (r : Row) :
  hid_of r ∈ seen -> dedup_step (seen, keep) r = (seen, keep).
Proof.
  intros H. rewrite dedup_step_eq.
  destruct (decide (hid_of r ∈ seen)); [ reflexivity | contradiction ].
Qed.

Lemma step_near (seen : gset string) (keep : list Row) (r : Row) :
  near_dup r keep = true -> dedup_step (seen, keep) r = (seen, keep).
Proof.
  intros H. rewrite dedup_step_eq.
  destruct (decide (hid_of r ∈ seen)); [ reflexivity | ].
  now rewrite H.
Qed.

Lemma step_keep (seen : gset string) (keep : list Row) (r : Row) :
  hid_of r ∉ seen -> near_dup r keep = false ->
  dedup_step (seen, keep) r = ({[hid_of r]} ∪ seen, keep ++ [r]).
Proof.
  intros H N. rewrite dedup_step_eq.
  destruct (decide (hid_of r ∈ seen)); [ contradiction | ].
  now rewrite N.
Qed.

Lemma dedup_loop_app (rows1 rows2 : list Row) (st : gset string * list Row) :
  dedup_loop (rows1 ++ rows2) st = dedup_loop rows2 (dedup_loop rows1 st).
Proof. apply fold_left_app. Qed.

Lemma seen_matches_step (st : gset string * list Row) (r : Row) :
  seen_matches st -> seen_matches (dedup_step st r).
Proof.
  destruct st as [seen keep]. intros Inv.
  rewrite dedup_step_eq.
  destruct (decide (hid_of r ∈ seen)); [ exact Inv | ].
  destruct (near_dup r keep); [ exact Inv | ].
  intros h. cbn [fst snd]. rewrite elem_of_union, elem_of_singleton.
  specialize (Inv h). cbn [fst snd] in Inv. rewrite Inv. split.
  - intros [-> | (u & Hu & E)].
    + exists r. split; [ apply in_or_app; right; now left | reflexivity ].
    + exists u. split; [ apply in_or_app; now left | exact E ].
  - intros (u & Hu & E). apply in_app_or in Hu as [Hu | [<- | []]].
    + right. now exists u.
    + now left.
Qed.

Lemma seen_matches_loop (rows : list Row) (st : gset string * list Row) :
  seen_matches st -> seen_matches (dedup_loop rows st).
Proof.
  revert st. induction rows as [ | r rows IH]; intros st Inv; [ exact Inv | ].
  rewrite dedup_loop_cons. apply IH. now apply seen_matches_step.
Qed.

Lemma seen_matches_init : seen_matches (∅, []).
Proof.
  intros h. cbn [fst snd]. split.
  - intros H. now apply not_elem_of_empty in H.
  - intros (u & [] & _).
Qed.

(** A row that a step leaves out does not change what later rows meet. *)
Lemma dropped_row_is_skipped (pre post : list Row) (b : Row) :
  dedup_step (dedup_loop pre (∅, [])) b = dedup_loop pre (∅, []) ->
  deduplicate (pre ++ b :: post) = deduplicate (pre ++ post).
Proof.
  intros H. rewrite !deduplicate_eq, !dedup_loop_app, dedup_loop_cons.
  now rewrite H.
Qed.

Lemma exact_duplicate_skipped (pre post : list Row) (a b : Row) :
  In a (deduplicate pre) -> hid_of a = hid_of b ->
  deduplicate (pre ++ b :: post) = deduplicate (pre ++ post).
Proof.
  intros Ha E. apply dropped_row_is_skipped.
  pose proof (seen_matches_loop pre _ seen_matches_init) as Inv.
  rewrite deduplicate_eq in Ha.
  destruct (dedup_loop pre (∅, [])) as [seen keep].
  apply step_exact. apply (Inv (hid_of b)). exists a. now split.
Qed.

Lemma near_duplicate_skipped (pre post : list Row) (a b : Row) :
  In a (deduplicate pre) -> similar b a ->
  deduplicate (pre ++ b :: post) = deduplicate (pre ++ post).
Proof.
  intros Ha S. apply dropped_row_is_skipped.
  rewrite deduplicate_eq in Ha.
  destruct (dedup_loop pre (∅, [])) as [seen keep].
  apply step_near, near_dup_iff. exists a. now split.
Qed.

(** The first row of a pool is always kept. *)
Lemma deduplicate_single (a : Row) : deduplicate [a] = [a].
Proof.
  rewrite deduplicate_eq, dedup_loop_cons, dedup_loop_nil.
  rewrite step_keep; [ reflexivity | apply not_elem_of_empty | reflexivity ].
Qed.

Lemma deduplicate_pair_dropped (a b : Row) :
  dedup_step (dedup_loop [a] (∅, [])) b = dedup_loop [a] (∅, []) ->
  deduplicate [a; b] = [a].
Proof.
  intros H.
  change [a; b] with ([a] ++ b :: []).
  rewrite (dropped_row_is_skipped [a] [] b H). apply deduplicate_single.
Qed.

Lemma same_fields_same_hid (a b : Row) :
  url (item a) = url (item b) -> title (item a) = title (item b) ->
  hid_of a = hid_of b.
Proof. intros U T. rewrite !hid_of_eq. now rewrite U, T. Qed.

Lemma same_bytes_same_hid (a b : Row) :
  (or_empty (url (item a)) ++ title (item a))%string =
  (or_empty (url (item b)) ++ title (item b))%string ->
  hid_of a = hid_of b.
Proof. intros E. rewrite !hid_of_eq. now rewrite E. Qed.

Lemma in_deduplicate_single (a : Row) : In a (deduplicate [a]).
Proof. rewrite deduplicate_single. now left. Qed.

(** C4.  [deduplicate] handles the rows from left to right, each against
    the rows kept so far.  A row whose lower-cased title has a token-set
    ratio of 92 or more with the title of some kept row is dropped, whatever
    the URLs; a row that the exact phase lets through and that is close to
    no kept row is appended to the kept rows.  So of two rows with close
    titles only the first survives, also inside a longer pool once the first
    is kept. *)
Theorem near_duplicate_first_seen_wins :
  (forall rows r,
     deduplicate (rows ++ [r]) = snd (dedup_step (dedup_loop rows (∅, [])) r)) /\
  (forall seen keep r,
     (exists u, In u keep /\ similar r u) ->
     dedup_step (seen, keep) r = (seen, keep)) /\
  (forall seen keep r,
     hid_of r ∉ seen -> (forall u, In u keep -> ~ similar r u) ->
     dedup_step (seen, keep) r = ({[hid_of r]} ∪ seen, keep ++ [r])) /\
  (forall a b, similar b a -> deduplicate [a; b] = [a]) /\
  (forall pre post a b,
     In a (deduplicate pre) -> similar b a ->
     deduplicate (pre ++ b :: post) = deduplicate (pre ++ post)).
Proof.
  split; [ | split; [ | split; [ | split ] ] ].
  - intros rows r.
    now rewrite deduplicate_eq, dedup_loop_app, dedup_loop_cons, dedup_loop_nil.
  - intros seen keep r H. now apply step_near, near_dup_iff.
  - intros seen keep r Hh Hn. apply step_keep; [ exact Hh | ].
    destruct (near_dup r keep) eqn:E; [ | reflexivity ].
    apply near_dup_iff in E as (u & Hu & S). now destruct (Hn u Hu).
  - intros a b S.
    change [a; b] with ([a] ++ b :: []).
    rewrite (near_duplicate_skipped [a] [] a b (in_deduplicate_single a) S).
    apply deduplicate_single.
  - intros pre post a b. apply near_duplicate_skipped.
Qed.


(** C10.  The fingerprint is the first 16 hexadecimal digits of the SHA-256
    of the URL bytes followed by the title bytes, with nothing in between
    and a missing URL read as the empty string.  Two rows whose
    concatenations agree get the same fingerprint even if their URLs and
    titles differ, and the later one is dropped as an exact duplicate. *)
Theorem fingerprint_ignores_field_boundary :
  (forall r,
     hid_of r =
     substring 0 16
       (sha256_hexdigest (or_empty (url (item r)) ++ title (item r)))) /\
  (forall a b,
     (or_empty (url (item a)) ++ title (item a))%string =
     (or_empty (url (item b)) ++ title (item b))%string ->
     hid_of a = hid_of b /\
     dedup_step (dedup_loop [a] (∅, [])) b = dedup_loop [a] (∅, []) /\
     deduplicate [a; b] = [a]) /\
  (forall pre post a b,
     In a (deduplicate pre) ->
     (or_empty (url (item a)) ++ title (item a))%string =
     (or_empty (url (item b)) ++ title (item b))%string ->
     deduplicate (pre ++ b :: post) = deduplicate (pre ++ post)).
Proof.
  split; [ intros r; apply hid_of_eq | split ].
  - intros a b E. pose proof (same_bytes_same_hid a b E) as H.
    assert (D : dedup_step (dedup_loop [a] (∅, [])) b = dedup_loop [a] (∅, [])).
    { rewrite dedup_loop_cons, dedup_loop_nil.
      rewrite (step_keep ∅ [] a); [ | apply not_elem_of_empty | reflexivity ].
      apply step_exact. rewrite <- H. set_solver. }
    repeat split; [ exact H | exact D | now apply deduplicate_pair_dropped ].
  - intros pre post a b Ha E.
    apply (exact_duplicate_skipped pre post a b Ha).
    now apply same_bytes_same_hid.
Qed.

End DedupFacts.

(* ===================================================================== *)
(** * The off-topic penalty *)
(* ===================================================================== *)



(* ===================================================================== *)
(** * Date normalisation *)
(* ===================================================================== *)

Section DateFacts.

Variable strptime : string -> string -> option Z.
Variable utcoffset : Z -> Z.





End DateFacts.


(* ===================================================================== *)
(** * The retry loop *)
(* ===================================================================== *)

(** The wait of [backoff_sleep attempt] for the random draw [u]. *)
Definition backoff_seconds (u : Q) (attempt : nat) : Q :=
  ((fst RETRY_BACKOFF + (snd RETRY_BACKOFF - fst RETRY_BACKOFF) * u)
   * inject_Z (Z.of_nat attempt))%Q.

Section HttpFacts.

Variable network : nat -> Outcome.
Variable random_random : nat -> Q.

(** [random.random()] lies in the half-open interval from 0 to 1. *)
Hypothesis random_range : forall n, (0 <= random_random n < 1)%Q.

(** The loop never sends more requests than it has attempt numbers. *)
Lemma safe_get_loop_sent (url : string) (attempts : list nat) (st : Net) :
  (sent (snd (safe_get_loop network random_random url attempts st))
   <= sent st + List.length attempts)%nat.
Proof.
  revert st. induction attempts as [ | a rest IH]; intros st; cbn [safe_get_loop].
  - cbn. lia.
  - unfold requests_get.
    destruct (returned (network (sent st))) as [r | ].
    + cbn. lia.
    + match goal with
      | |- context [safe_get_loop _ _ _ rest ?st2] => specialize (IH st2)
      end.
      destruct (a <? RETRY_ATTEMPTS)%nat; cbn in IH |- *; lia.
Qed.

Lemma backoff_seconds_range (n attempt : nat) :
  (1 <= attempt)%nat ->
  ((12 # 10) * inject_Z (Z.of_nat attempt)
   <= backoff_seconds (random_random n) attempt)%Q /\
  (backoff_seconds (random_random n) attempt
   < 2 * inject_Z (Z.of_nat attempt))%Q.
Proof.
  intros Ha. destruct (random_range n) as [L U].
  unfold backoff_seconds. cbn [RETRY_BACKOFF fst snd].
  assert (A : (0 < inject_Z (Z.of_nat attempt))%Q)
    by (change 0%Q with (inject_Z 0); rewrite <- Zlt_Qlt; lia).
  set (u := random_random n) in *. set (k := inject_Z (Z.of_nat attempt)) in *.
  clearbody u k.
  split.
  - apply Qmult_le_compat_r; [ lra | now apply Qlt_le_weak ].
  - apply Qmult_lt_compat_r; [ exact A | lra ].
Qed.

(** C9, as amended.  [safe_get] sends at most [RETRY_ATTEMPTS] = 3
    requests.  It returns the first response with status 200 and stops
    there.  Any other attempt, one that raises as well as one that returns
    another status, is followed by a further attempt while attempts remain,
    after a wait of [(1.2 + 0.8 u) * k] seconds, [u] a fresh random draw in
    [0, 1) and [k] the number of the attempt that failed; after the third
    failure it returns nothing without waiting. *)
Theorem safe_get_retry_policy (url : string) (st : Net) :
  let o1 := network (sent st) in
  let o2 := network (S (sent st)) in
  let o3 := network (S (S (sent st))) in
  let d1 := backoff_seconds (random_random (drawn st)) 1 in
  let d2 := backoff_seconds (random_random (S (drawn st))) 2 in
  (sent (snd (safe_get network random_random url st))
   <= sent st + RETRY_ATTEMPTS)%nat /\
  safe_get network random_random url st =
    match returned o1, returned o2, returned o3 with
    | Some r, _, _ =>
        (Some r, {| sent := S (sent st); drawn := drawn st;
                    events := events st ++ [EvGet url] |})
    | None, Some r, _ =>
        (Some r, {| sent := S (S (sent st)); drawn := S (drawn st);
                    events := events st
                              ++ [EvGet url; EvSleep d1; EvGet url] |})
    | None, None, r =>
        (r, {| sent := S (S (S (sent st))); drawn := S (S (drawn st));
               events := events st
                         ++ [EvGet url; EvSleep d1; EvGet url;
                             EvSleep d2; EvGet url] |})
    end /\
  ((12 # 10) <= d1)%Q /\ (d1 < 2)%Q /\ ((24 # 10) <= d2)%Q /\ (d2 < 4)%Q.
Proof.
  intros o1 o2 o3 d1 d2.
  split; [ apply safe_get_loop_sent | split ].
  - unfold safe_get, RETRY_ATTEMPTS.
    cbn [seq safe_get_loop requests_get Nat.ltb Nat.leb backoff_sleep
         RETRY_ATTEMPTS RETRY_BACKOFF sent drawn events].
    fold o1. destruct (returned o1) as [r1 | ]; [ reflexivity | ].
    fold o2. destruct (returned o2) as [r2 | ].
    + rewrite <- !app_assoc. reflexivity.
    + fold o3. rewrite <- !app_assoc.
      destruct (returned o3) as [r3 | ]; reflexivity.
  - destruct (backoff_seconds_range (drawn st) 1) as [A1 B1]; [ lia | ].
    destruct (backoff_seconds_range (S (drawn st)) 2) as [A2 B2]; [ lia | ].
    fold d1 in A1, B1. fold d2 in A2, B2.
    change (inject_Z (Z.of_nat 1)) with 1%Q in A1, B1.
    change (inject_Z (Z.of_nat 2)) with 2%Q in A2, B2.
    clearbody d1 d2. repeat split; lra.
Qed.

End HttpFacts.

(** C9, counterexample.  The first request returns status 503, the second
    status 200: [safe_get] waits, asks again and returns the second
    response, so a non-success response is retried like a raised error. *)
Lemma non_success_response_is_retried :
  let network := fun n => match n with
                          | O => Response 503 "busy"
                          | S _ => Response 200 "ok"
                          end in
  let random_random := fun _ : nat => (1 # 2)%Q in
  let st0 := {| sent := 0; drawn := 0; events := [] |} in
  returned (network 0%nat) = None /\
  fst (safe_get network random_random "u" st0) = Some "ok" /\
  sent (snd (safe_get network random_random "u" st0)) = 2%nat /\
  List.length (events (snd (safe_get network random_random "u" st0))) = 3%nat.
Proof. vm_compute. repeat split; reflexivity. Qed.

(* ===================================================================== *)
(** * The final order *)
(* ===================================================================== *)









Lemma sort_insert_perm (x : Record_) (l : list Record_) :
  Permutation (x :: l) (sort_insert x l).
Proof.
  induction l as [ | y l IH]; cbn [sort_insert]; [ reflexivity | ].
  destruct (record_leb x y); [ reflexivity | ].
  rewrite perm_swap. now apply perm_skip.
Qed.

Lemma sort_values_perm (l : list Record_) : Permutation l (sort_values l).
Proof.
  induction l as [ | x l IH]; cbn [sort_values]; [ reflexivity | ].
  rewrite <- sort_insert_perm. now apply perm_skip.
Qed.





(* ===================================================================== *)
(** * The run: relevance floor, pinned rows, final order *)
(* ===================================================================== *)

Lemma above_floor_In (rows : list Row) (r : Row) :
  In r (above_floor rows) <-> In r rows /\ (MIN_RELEVANCE <= score r)%Z.
Proof.
  unfold above_floor. rewrite filter_In, Z.leb_le. reflexivity.
Qed.

Section RunFacts.

Variable token_set_ratio : string -> string -> Q.
Variable partial_ratio : string -> string -> Q.
Variable sha256_hexdigest : string -> string.
Variable strptime : string -> string -> option Z.
Variable utcoffset : Z -> Z.
Variable fetch_google_news : string -> option (list Candidate).
Variable fetch_gdelt : string -> option (list Candidate).
Variable fetch_page_meta : string -> string * string.
Variable today_local : nat -> Z.
Variable today_stamp : nat -> string.

Lemma score_rows_In (rows : list Candidate) (c : Candidate) (s : Z) :
  In {| item := c; score := s |} (score_rows token_set_ratio partial_ratio rows) <->
  In c rows /\ s = relevance_score token_set_ratio partial_ratio c.
Proof.
  unfold score_rows. rewrite in_map_iff. split.
  - intros (c' & [= -> ->] & Hc). now split.
  - intros (Hc & ->). now exists c.
Qed.

Lemma material_rows_floor (mat : string) (r : Row) :
  In r (material_rows token_set_ratio partial_ratio fetch_google_news fetch_gdelt mat) ->
  (MIN_RELEVANCE <= score r)%Z /\
  score r = relevance_score token_set_ratio partial_ratio (item r).
Proof.
  unfold material_rows.
  destruct (fetch_google_news mat) as [rss | ]; [ | intros [] ].
  destruct (fetch_gdelt mat) as [gd | ]; [ | intros [] ].
  intros H. apply above_floor_In in H as [H F]. split; [ exact F | ].
  destruct r as [c s]. now apply score_rows_In in H.
Qed.

Lemma run_eq (materials pinned : list string) :
  run token_set_ratio partial_ratio sha256_hexdigest strptime utcoffset
      fetch_google_news fetch_gdelt fetch_page_meta today_local today_stamp
      materials pinned =
  match deduplicate sha256_hexdigest token_set_ratio
          (pooled_rows token_set_ratio partial_ratio fetch_google_news
                       fetch_gdelt fetch_page_meta today_stamp materials pinned)
  with
  | [] => None
  | r :: rows =>
      Some (sort_values (to_records_from strptime utcoffset today_local 0 (r :: rows)))
  end.
Proof. unfold run. now destruct (deduplicate _ _ _). Qed.

Abbreviation relevance_score := (relevance_score token_set_ratio partial_ratio).
Abbreviation score_rows := (score_rows token_set_ratio partial_ratio).
Abbreviation material_rows :=
  (material_rows token_set_ratio partial_ratio fetch_google_news fetch_gdelt).
Abbreviation pooled_rows :=
  (pooled_rows token_set_ratio partial_ratio fetch_google_news fetch_gdelt
               fetch_page_meta today_stamp).
Abbreviation deduplicate := (deduplicate sha256_hexdigest token_set_ratio).
Abbreviation to_records_from := (to_records_from strptime utcoffset today_local).
Abbreviation run :=
  (run token_set_ratio partial_ratio sha256_hexdigest strptime utcoffset
       fetch_google_news fetch_gdelt fetch_page_meta today_local today_stamp).

(** Pinned rows enter the pool after the filter, one per link, each with
    score 100. *)
Lemma pinned_rows_score (pinned : list string) (i : nat) (r : Row) :
  In r (pinned_rows_from fetch_page_meta today_stamp i pinned) ->
  score r = 100%Z /\
  List.length (pinned_rows_from fetch_page_meta today_stamp i pinned)
  = List.length pinned.
Proof.
  revert i. induction pinned as [ | u urls IH]; intros i; [ intros [] | ].
  cbn [pinned_rows_from List.length]. intros [<- | H].
  - split.
    + unfold pinned_row. now destruct (fetch_page_meta u).
    + f_equal. clear IH. revert i. induction urls as [ | v urls IHu]; intros i;
        [ reflexivity | ].
      cbn [pinned_rows_from List.length]. f_equal. apply (IHu (S i)).
  - destruct (IH (S i) H) as [S100 L]. split; [ exact S100 | now f_equal ].
Qed.

Lemma pinned_rows_pooled (materials pinned : list string) (r : Row) :
  In r (pinned_rows_from fetch_page_meta today_stamp 0 pinned) ->
  In r (pooled_rows materials pinned).
Proof. intros H. apply in_or_app. now right. Qed.



End RunFacts.

(* ===================================================================== *)
(** * A pinned link that the feeds report too *)
(* ===================================================================== *)

(** One run of the program: GDELT reports, for the material "LPG GAS", the
    article behind the pinned link, under the title that the pinned page
    carries; every other fetch comes back empty. *)
Module Scenario.

Definition page_title : string := "LPG gas supply crisis deepens".

Definition pinned_url : string := "https://www.bbc.com/news/articles/c9qy98gp474o".

Definition fetched : Candidate :=
  {| material := "LPG GAS";
     query_variant := "LPG GAS";
     title := page_title;
     url := Some pinned_url;
     published := Some "20230102100000";
     source := "GDELT";
     summary := "" |}.

Definition fetch_google_news (mat : string) : option (list Candidate) := Some [].

Definition fetch_gdelt (mat : string) : option (list Candidate) :=
  if String.eqb mat "LPG GAS" then Some [fetched] else Some [].

Definition fetch_page_meta (u : string) : string * string := (page_title, "").

End Scenario.

Section PinnedFacts.

Variable token_set_ratio : string -> string -> Q.
Variable partial_ratio : string -> string -> Q.
Variable sha256_hexdigest : string -> string.
Variable strptime : string -> string -> option Z.
Variable utcoffset : Z -> Z.
Variable today_local : nat -> Z.
Variable today_stamp : nat -> string.

Lemma scenario_other_material (mat : string) :
  String.eqb mat "LPG GAS" = false ->
  material_rows token_set_ratio partial_ratio
                Scenario.fetch_google_news Scenario.fetch_gdelt mat = [].
Proof.
  intros H. unfold material_rows, Scenario.fetch_google_news, Scenario.fetch_gdelt.
  now rewrite H.
Qed.

Lemma scenario_fetched_rows :
  (MIN_RELEVANCE <= relevance_score token_set_ratio partial_ratio Scenario.fetched)%Z ->
  flat_map (material_rows token_set_ratio partial_ratio
                          Scenario.fetch_google_news Scenario.fetch_gdelt)
           MATERIALS =
  [ {| item := Scenario.fetched;
       score := relevance_score token_set_ratio partial_ratio Scenario.fetched |} ].
Proof.
  intros H. unfold MATERIALS. cbn [flat_map].
  repeat rewrite scenario_other_material by reflexivity.
  cbn [app].
  unfold material_rows, Scenario.fetch_google_news, Scenario.fetch_gdelt.
  cbn [String.eqb Ascii.eqb Bool.eqb app score_rows map above_floor List.filter score].
  apply Z.leb_le in H. now rewrite H.
Qed.

(** C2, at the failing input.  In the run of [Scenario], with a fetched row
    that passes the floor, the data frame holds one record, the fetched
    one: the pinned row, appended to the pool after the fetched rows, has
    the fingerprint of a kept row and is dropped by [deduplicate]. *)
Theorem pinned_row_lost_to_fetched_duplicate :
  (MIN_RELEVANCE <= relevance_score token_set_ratio partial_ratio Scenario.fetched)%Z ->
  exists rec,
    main token_set_ratio partial_ratio sha256_hexdigest strptime utcoffset
         Scenario.fetch_google_news Scenario.fetch_gdelt Scenario.fetch_page_meta
         today_local today_stamp = Some [rec] /\
    Material rec = "LPG GAS" /\ Source rec = "GDELT" /\
    URL rec = Some Scenario.pinned_url /\
    score (pinned_row Scenario.fetch_page_meta today_stamp 0 Scenario.pinned_url) = 100%Z.
Proof.
  intros H. unfold main. rewrite run_eq. unfold pooled_rows.
  rewrite (scenario_fetched_rows H).
  unfold PINNED_SIGNALS. cbn [pinned_rows_from app].
  set (r0 := {| item := Scenario.fetched; score := _ |}).
  set (p := pinned_row _ _ _ _).
  change [r0; p] with ([r0] ++ p :: []).
  rewrite (exact_duplicate_skipped sha256_hexdigest token_set_ratio [r0] [] r0 p).
  - cbn [app]. rewrite deduplicate_single.
    eexists. split; [ reflexivity | ]. repeat split; reflexivity.
  - apply in_deduplicate_single.
  - apply same_fields_same_hid; reflexivity.
Qed.

End PinnedFacts.

(* ===================================================================== *)
(** * The theorems at concrete inputs *)
(* ===================================================================== *)

Module Examples.

(** The scenario of the specification: propane, the Suez Canal, East Africa. *)
Definition propane_row : Candidate :=
  {| material := "LPG GAS";
     query_variant := "propane";
     title := "Propane prices jump 15% as Suez Canal congestion disrupts LPG shipments to East Africa";
     url := Some "https://example.org/propane";
     published := Some "Mon, 02 Jan 2023 10:00:00 GMT";
     source := "GoogleNewsRSS";
     summary := "" |}.

(** A row with an off-topic keyword. *)
Definition gossip_row : Candidate :=
  {| material := "KANZIRONZIRO";
     query_variant := "KANZIRONZIRO";
     title := "gossip";
     url := Some "https://example.org/gossip";
     published := None;
     source := "GDELT";
     summary := "" |}.

(** Two rows that differ by the off-topic keyword "movie" alone. *)
Definition acetone_row (t : string) : Candidate :=
  {| material := "ACETONE";
     query_variant := "ACETONE";
     title := t;
     url := Some "https://example.org/acetone";
     published := None;
     source := "GDELT";
     summary := "" |}.

Definition row_of (u t : string) : Row :=
  {| item := {| material := "ACETONE"; query_variant := "ACETONE"; title := t;
                url := Some u; published := None; source := "GDELT";
                summary := "" |};
     score := 70 |}.

(** A network whose first answer is status 503 and whose later answers
    are status 200, and a random generator stuck at one half. *)
Definition busy_then_ok (n : nat) : Outcome :=
  match n with
  | O => Response 503 "busy"
  | S _ => Response 200 "ok"
  end.

Definition one_half (_ : nat) : Q := (1 # 2)%Q.

Definition fresh : Net := {| sent := 0; drawn := 0; events := [] |}.

End Examples.

Import Examples.

Example propane_row_scores_100 :
  base_of Ref.token_set_ratio propane_row = 100%Q /\
  generic_of propane_row = false /\
  relevance_score Ref.token_set_ratio Ref.partial_ratio propane_row = 100%Z.
Proof. vm_compute. repeat split; reflexivity. Qed.

Example gossip_row_scores_62 :
  generic_of gossip_row = true /\
  relevance_score Ref.token_set_ratio Ref.partial_ratio gossip_row = 62%Z.
Proof. vm_compute. repeat split; reflexivity. Qed.

(** Line 296 has no lower clamp: with ratios that are always zero, which
    rapidfuzz's are not, the same row would score -12. *)
Example score_without_any_match :
  relevance_score (fun _ _ => 0%Q) (fun _ _ => 0%Q) gossip_row = (-12)%Z.
Proof. vm_compute. reflexivity. Qed.


Lemma propane_titles_similar :
  similar Ref.token_set_ratio
          (row_of "https://b.example/2" "Propane prices jump again")
          (row_of "https://a.example/1" "Propane prices jump").
Proof. unfold similar. vm_compute. discriminate. Qed.

Lemma near_duplicate_first_seen_wins_witness :
  deduplicate Ref.hexdigest Ref.token_set_ratio
    [ row_of "https://a.example/1" "Propane prices jump";
      row_of "https://b.example/2" "Propane prices jump again" ] =
  [ row_of "https://a.example/1" "Propane prices jump" ].
Proof.
  apply (proj1 (proj2 (proj2 (proj2
           (near_duplicate_first_seen_wins Ref.hexdigest Ref.token_set_ratio))))).
  exact propane_titles_similar.
Defined.


Lemma fingerprint_ignores_field_boundary_witness :
  hid_of Ref.hexdigest (row_of "ab" "c") = hid_of Ref.hexdigest (row_of "a" "bc") /\
  dedup_step Ref.hexdigest Ref.token_set_ratio
    (dedup_loop Ref.hexdigest Ref.token_set_ratio [row_of "ab" "c"] (∅, []))
    (row_of "a" "bc") =
  dedup_loop Ref.hexdigest Ref.token_set_ratio [row_of "ab" "c"] (∅, []) /\
  deduplicate Ref.hexdigest Ref.token_set_ratio [row_of "ab" "c"; row_of "a" "bc"] =
  [row_of "ab" "c"].
Proof.
  apply (proj1 (proj2
           (fingerprint_ignores_field_boundary Ref.hexdigest Ref.token_set_ratio))).
  reflexivity.
Defined.

(** The rows ("ab", "c") and ("a", "bc") are not near-duplicates, so it is
    the exact phase that drops the second. *)
Example boundary_rows_not_similar :
  near_dup Ref.token_set_ratio (row_of "a" "bc") [row_of "ab" "c"] = false.
Proof. vm_compute. reflexivity. Qed.

(** Two copies of a row without a title are not near-duplicates either:
    the exact phase alone drops the second copy. *)
Example untitled_rows_not_similar :
  near_dup Ref.token_set_ratio (row_of "https://a.example/1" "")
           [row_of "https://a.example/1" ""] = false.
Proof. vm_compute. reflexivity. Qed.



Example penalty_of_12_on_80 :
  final_score 50 30 0 0 false = 80%Z /\ final_score 50 30 0 0 true = 68%Z.
Proof. vm_compute. split; reflexivity. Qed.


Lemma one_half_in_range (n : nat) : (0 <= one_half n < 1)%Q.
Proof. unfold one_half. split; [ discriminate | reflexivity ]. Qed.

Lemma safe_get_retry_policy_witness :
  fst (safe_get busy_then_ok one_half "https://api.gdeltproject.org/api/v2/doc/doc" fresh)
  = Some "ok" /\
  (sent (snd (safe_get busy_then_ok one_half
                       "https://api.gdeltproject.org/api/v2/doc/doc" fresh))
   <= 3)%nat.
Proof.
  pose proof (safe_get_retry_policy busy_then_ok one_half one_half_in_range
                "https://api.gdeltproject.org/api/v2/doc/doc" fresh) as H.
  cbv zeta in H. destruct H as (Hsent & Heq & _).
  split; [ rewrite Heq; reflexivity | exact Hsent ].
Defined.

Lemma scenario_row_passes_floor :
  (MIN_RELEVANCE <=
   relevance_score Ref.token_set_ratio Ref.partial_ratio Scenario.fetched)%Z.
Proof. vm_compute. discriminate. Qed.

Lemma pinned_row_lost_to_fetched_duplicate_witness :
  exists rec,
    main Ref.token_set_ratio Ref.partial_ratio Ref.hexdigest Ref.strptime Ref.utcoffset
         Scenario.fetch_google_news Scenario.fetch_gdelt Scenario.fetch_page_meta
         (fun _ => Ref.JAN_2_2023_10H) (fun _ => "2023-01-02 10:00:00") = Some [rec] /\
    Material rec = "LPG GAS" /\ Source rec = "GDELT" /\
    URL rec = Some Scenario.pinned_url /\
    score (pinned_row Scenario.fetch_page_meta (fun _ => "2023-01-02 10:00:00") 0
                      Scenario.pinned_url) = 100%Z.
Proof.
  apply (pinned_row_lost_to_fetched_duplicate Ref.token_set_ratio Ref.partial_ratio
           Ref.hexdigest Ref.strptime Ref.utcoffset).
  exact scenario_row_passes_floor.
Defined.

(* ===================================================================== *)
(** * Query expansion: what [expand_queries] keeps *)
(* ===================================================================== *)

Lemma dict_fromkeys_In (seen : gset string) (qs : list string) (q : string) :
  In q (dict_fromkeys seen qs) <-> In q qs /\ q ∉ seen.
Proof.
  revert seen. induction qs as [ | x qs IH]; intros seen; cbn [dict_fromkeys].
  - cbn. tauto.
  - destruct (decide (x ∈ seen)) as [Hx | Hx].
    + rewrite IH. cbn. split.
      * intros [H1 H2]. auto.
      * intros [[-> | H1] H2]; [ contradiction | auto ].
    + cbn. rewrite IH. split.
      * intros [<- | [H1 H2]]; [ auto | ].
        split; [ auto | ]. set_solver.
      * intros [[-> | H1] H2]; [ now left | ].
        destruct (decide (q = x)) as [-> | Hne]; [ now left | ].
        right. split; [ exact H1 | set_solver ].
Qed.

Lemma dict_fromkeys_NoDup (seen : gset string) (qs : list string) :
  List.NoDup (dict_fromkeys seen qs).
Proof.
  revert seen. induction qs as [ | x qs IH]; intros seen; cbn [dict_fromkeys].
  - constructor.
  - destruct (decide (x ∈ seen)); [ apply IH | ].
    constructor; [ | apply IH ].
    rewrite dict_fromkeys_In. intros [_ H]. set_solver.
Qed.

Lemma dict_fromkeys_sublist (seen : gset string) (qs : list string) :
  dict_fromkeys seen qs `sublist_of` qs.
Proof.
  revert seen. induction qs as [ | x qs IH]; intros seen; cbn [dict_fromkeys].
  - constructor.
  - destruct (decide (x ∈ seen)); [ apply sublist_cons | apply sublist_skip ];
      apply IH.
Qed.

Lemma dict_fromkeys_head (m : string) (syns : list string) :
  (exists rest, dict_fromkeys ∅ (m :: syns) = m :: rest /\
                rest `sublist_of` syns) /\
  List.NoDup (dict_fromkeys ∅ (m :: syns)) /\
  (forall q, In q (dict_fromkeys ∅ (m :: syns)) <-> q = m \/ In q syns).
Proof.
  split; [ | split ].
  - cbn [dict_fromkeys].
    destruct (decide (m ∈ (∅ : gset string))) as [H | _]; [ set_solver | ].
    eexists. split; [ reflexivity | apply dict_fromkeys_sublist ].
  - apply dict_fromkeys_NoDup.
  - intros q. rewrite dict_fromkeys_In. cbn. split.
    + intros [[<- | H] _]; auto.
    + intros [-> | H]; (split; [ auto | set_solver ]).
Qed.

Lemma expand_queries_eq (material : string) :
  expand_queries material =
  dict_fromkeys ∅ (material :: default [] (SYNONYMS !! material)).
Proof. reflexivity. Qed.

(** X1.  [expand_queries] returns the material first, then its synonyms in
    the configured order; no query occurs twice, every synonym occurs, and
    nothing else does.  A material without an entry in [SYNONYMS] expands
    to itself alone. *)
Theorem expand_queries_shape (material : string) :
  (exists rest, expand_queries material = material :: rest /\
                rest `sublist_of` default [] (SYNONYMS !! material)) /\
  List.NoDup (expand_queries material) /\
  (forall q, In q (expand_queries material) <->
             q = material \/ In q (default [] (SYNONYMS !! material))) /\
  (SYNONYMS !! material = None -> expand_queries material = [material]).
Proof.
  rewrite expand_queries_eq.
  generalize (SYNONYMS !! material). intros syn.
  destruct (dict_fromkeys_head material (default [] syn)) as (A & B & C).
  split; [ exact A | split; [ exact B | split; [ exact C | ] ] ].
  intros ->. cbn [default dict_fromkeys].
  destruct (decide (material ∈ (∅ : gset string))) as [H | _];
    [ set_solver | reflexivity ].
Qed.

(* ===================================================================== *)
(** * Deduplication: what the kept rows look like *)
(* ===================================================================== *)

Section DedupShape.

Variable sha256_hexdigest : string -> string.
Variable token_set_ratio : string -> string -> Q.

Let hid := hid_of sha256_hexdigest.
Let step := dedup_step sha256_hexdigest token_set_ratio.
Let loop := dedup_loop sha256_hexdigest token_set_ratio.
Let dedup := deduplicate sha256_hexdigest token_set_ratio.

(** [r] is new for the rows [keep]: no row of [keep] has its fingerprint
    and none has a title close to its title. *)
Definition fresh (keep : list Row) (r : Row) : Prop :=
  (forall u, In u keep -> hid_of sha256_hexdigest u <> hid_of sha256_hexdigest r) /\
  (forall u, In u keep -> ~ similar token_set_ratio r u).

(** Every row of [keep] is new for the rows before it. *)
Definition well_kept (keep : list Row) : Prop :=
  forall p r q, keep = p ++ r :: q -> fresh p r.

Lemma fresh_dec (keep : list Row) (r : Row) : fresh keep r \/ ~ fresh keep r.
Proof.
  unfold fresh.
  destruct (existsb (fun u => String.eqb (hid u) (hid r)) keep) eqn:E1.
  - right. intros [H _]. apply existsb_exists in E1 as (u & Hu & E).
    apply String.eqb_eq in E. exact (H u Hu E).
  - destruct (near_dup token_set_ratio r keep) eqn:E2.
    + right. intros [_ H]. apply near_dup_iff in E2 as (u & Hu & S).
      exact (H u Hu S).
    + left. split.
      * intros u Hu E.
        assert (X : existsb (fun u => String.eqb (hid u) (hid r)) keep = true).
        { apply existsb_exists. exists u. split; [ exact Hu | ].
          now apply String.eqb_eq. }
        rewrite X in E1. discriminate.
      * intros u Hu S.
        assert (X : near_dup token_set_ratio r keep = true)
          by (apply near_dup_iff; now exists u).
        rewrite X in E2. discriminate.
Qed.

(** Under the invariant on [seen], a step appends exactly the new rows. *)
Lemma step_fresh (seen : gset string) (keep : list Row) (r : Row) :
  seen_matches sha256_hexdigest (seen, keep) -> fresh keep r ->
  step (seen, keep) r = ({[hid r]} ∪ seen, keep ++ [r]).
Proof.
  intros Inv [F1 F2]. apply step_keep.
  - intros H. apply (Inv (hid r)) in H as (u & Hu & E). exact (F1 u Hu E).
  - destruct (near_dup token_set_ratio r keep) eqn:E; [ | reflexivity ].
    apply near_dup_iff in E as (u & Hu & S). now destruct (F2 u Hu).
Qed.

Lemma step_not_fresh (seen : gset string) (keep : list Row) (r : Row) :
  seen_matches sha256_hexdigest (seen, keep) -> ~ fresh keep r ->
  step (seen, keep) r = (seen, keep).
Proof.
  intros Inv NF. subst step. rewrite dedup_step_eq.
  destruct (decide (hid_of sha256_hexdigest r ∈ seen)) as [H | H];
    [ reflexivity | ].
  destruct (near_dup token_set_ratio r keep) eqn:E; [ reflexivity | ].
  exfalso. apply NF. split.
  - intros u Hu Eu. apply H. apply (Inv (hid_of sha256_hexdigest r)).
    now exists u.
  - intros u Hu S.
    assert (X : near_dup token_set_ratio r keep = true)
      by (apply near_dup_iff; now exists u).
    rewrite X in E. discriminate.
Qed.

Lemma well_kept_snoc (keep : list Row) (r : Row) :
  well_kept keep -> fresh keep r -> well_kept (keep ++ [r]).
Proof.
  intros W F p x q E.
  destruct q as [ | y q' _] using rev_ind.
  - apply app_inj_tail in E as [-> ->]. exact F.
  - rewrite app_comm_cons, app_assoc in E.
    apply app_inj_tail in E as [E _]. now apply (W p x q').
Qed.

(** The loop only appends: kept rows stay where they are, in front. *)
Lemma loop_appends (rows : list Row) (seen : gset string) (keep : list Row) :
  seen_matches sha256_hexdigest (seen, keep) -> well_kept keep ->
  exists extra,
    snd (loop rows (seen, keep)) = keep ++ extra /\
    extra `sublist_of` rows /\
    well_kept (keep ++ extra) /\
    (match rows with
     | r :: _ => fresh keep r -> exists tl, extra = r :: tl
     | [] => True
     end).
Proof.
  revert seen keep. induction rows as [ | r rows IH]; intros seen keep Inv W.
  - exists []. subst loop. rewrite dedup_loop_nil, app_nil_r. cbn [snd].
    split; [ reflexivity | ].
    split; [ apply sublist_nil_l | ]. split; [ exact W | exact I ].
  - subst loop. rewrite dedup_loop_cons.
    destruct (fresh_dec keep r) as [F | NF].
    + fold step. rewrite (step_fresh seen keep r Inv F).
      destruct (IH ({[hid r]} ∪ seen) (keep ++ [r])) as (extra & E & S & W' & _).
      * rewrite <- (step_fresh seen keep r Inv F).
        now apply seen_matches_step.
      * now apply well_kept_snoc.
      * exists (r :: extra). rewrite E, <- app_assoc. cbn [app].
        split; [ reflexivity | ].
        split; [ now apply sublist_skip | ].
        split; [ now rewrite <- app_assoc in W' | ].
        intros _. now exists extra.
    + fold step. rewrite (step_not_fresh seen keep r Inv NF).
      destruct (IH seen keep Inv W) as (extra & E & S & W' & _).
      exists extra. split; [ exact E | ].
      split; [ now apply sublist_cons | ].
      split; [ exact W' | ]. intros F. contradiction.
Qed.

Lemma well_kept_nil : well_kept [].
Proof. intros p r q E. now destruct p. Qed.

Lemma fresh_nil (r : Row) : fresh [] r.
Proof. split; intros u []. Qed.

Lemma deduplicate_spec (rows : list Row) :
  dedup rows `sublist_of` rows /\ well_kept (dedup rows) /\
  (match rows with
   | r :: _ => exists tl, dedup rows = r :: tl
   | [] => dedup rows = []
   end).
Proof.
  destruct (loop_appends rows ∅ [] (seen_matches_init sha256_hexdigest) well_kept_nil)
    as (extra & E & S & W & H).
  subst dedup. rewrite deduplicate_eq. fold loop. rewrite E. cbn [app] in *.
  split; [ exact S | split; [ exact W | ] ].
  destruct rows as [ | r rows].
  - now apply sublist_nil_r in S.
  - apply H, fresh_nil.
Qed.

Lemma deduplicate_nil_iff (rows : list Row) :
  deduplicate sha256_hexdigest token_set_ratio rows = [] <-> rows = [].
Proof.
  destruct (deduplicate_spec rows) as (_ & _ & H). cbv delta [dedup] in H.
  destruct rows as [ | r rest]; [ tauto | ].
  destruct H as (tl & ->). split; discriminate.
Qed.

(** Running the loop again over rows that are already well kept keeps
    them all. *)
Lemma loop_on_well_kept (rows : list Row) (seen : gset string) (p : list Row) :
  seen_matches sha256_hexdigest (seen, p) -> well_kept (p ++ rows) ->
  snd (loop rows (seen, p)) = p ++ rows.
Proof.
  revert seen p. induction rows as [ | r rows IH]; intros seen p Inv W.
  - subst loop. now rewrite dedup_loop_nil, app_nil_r.
  - subst loop. rewrite dedup_loop_cons. fold step.
    assert (F : fresh p r) by now apply (W p r rows).
    rewrite (step_fresh seen p r Inv F).
    rewrite (IH ({[hid r]} ∪ seen) (p ++ [r])).
    + now rewrite <- app_assoc.
    + rewrite <- (step_fresh seen p r Inv F). now apply seen_matches_step.
    + now rewrite <- app_assoc.
Qed.

(** X2.  [deduplicate] returns a selection of its input in the input's
    order: it adds no row, repeats none and reorders none.  The first row
    of the input is always kept, so the result is empty only for an empty
    input. *)
Theorem deduplicate_selects_in_order (rows : list Row) :
  deduplicate sha256_hexdigest token_set_ratio rows `sublist_of` rows /\
  (List.length (deduplicate sha256_hexdigest token_set_ratio rows)
   <= List.length rows)%nat /\
  (forall r, In r (deduplicate sha256_hexdigest token_set_ratio rows) -> In r rows) /\
  (forall r rest, rows = r :: rest ->
     exists tl, deduplicate sha256_hexdigest token_set_ratio rows = r :: tl) /\
  (deduplicate sha256_hexdigest token_set_ratio rows = [] <-> rows = []).
Proof.
  destruct (deduplicate_spec rows) as (S & _ & H). cbv delta [dedup] in S, H.
  split; [ exact S | ].
  split; [ now apply sublist_length | ].
  split.
  - intros r Hr. apply list_elem_of_In. apply list_elem_of_In in Hr.
    eapply elem_of_sublist; eassumption.
  - split.
    + intros r rest ->. exact H.
    + destruct rows as [ | r rest]; [ tauto | ].
      destruct H as (tl & ->). split; discriminate.
Qed.

(** X3.  In the result of [deduplicate] every row differs in fingerprint
    from each row before it, and its title is not within the near-duplicate
    threshold of the title of any row before it. *)
Theorem deduplicate_rows_pairwise_new (rows p q : list Row) (u r : Row) :
  deduplicate sha256_hexdigest token_set_ratio rows = p ++ r :: q ->
  In u p ->
  hid_of sha256_hexdigest u <> hid_of sha256_hexdigest r /\
  ~ similar token_set_ratio r u.
Proof.
  intros E Hu. destruct (deduplicate_spec rows) as (_ & W & _).
  destruct (W p r q E) as [F1 F2]. split; [ now apply F1 | now apply F2 ].
Qed.

(** X4.  [deduplicate] is idempotent: a second pass over its own result
    drops nothing. *)
Theorem deduplicate_idempotent (rows : list Row) :
  deduplicate sha256_hexdigest token_set_ratio
    (deduplicate sha256_hexdigest token_set_ratio rows) =
  deduplicate sha256_hexdigest token_set_ratio rows.
Proof.
  destruct (deduplicate_spec rows) as (_ & W & _). cbv delta [dedup] in W.
  rewrite (deduplicate_eq sha256_hexdigest token_set_ratio
             (deduplicate sha256_hexdigest token_set_ratio rows)).
  apply (loop_on_well_kept (deduplicate sha256_hexdigest token_set_ratio rows) ∅ []);
    [ apply seen_matches_init | exact W ].
Qed.

End DedupShape.

(* ===================================================================== *)
(** * The run: what the data frame holds *)
(* ===================================================================== *)

(** What the exact phase compares: the URL bytes followed by the title. *)
Definition row_key (r : Row) : string :=
  (or_empty (url (item r)) ++ title (item r))%string.

Definition record_key (rec : Record_) : string :=
  (or_empty (URL rec) ++ Title rec)%string.

Lemma sort_values_length (l : list Record_) :
  List.length (sort_values l) = List.length l.
Proof. symmetry. apply Permutation_length, sort_values_perm. Qed.

Section RunShape.

Variable token_set_ratio : string -> string -> Q.
Variable partial_ratio : string -> string -> Q.
Variable sha256_hexdigest : string -> string.
Variable strptime : string -> string -> option Z.
Variable utcoffset : Z -> Z.
Variable fetch_google_news : string -> option (list Candidate).
Variable fetch_gdelt : string -> option (list Candidate).
Variable fetch_page_meta : string -> string * string.
Variable today_local : nat -> Z.
Variable today_stamp : nat -> string.

Let pool := pooled_rows token_set_ratio partial_ratio fetch_google_news
                        fetch_gdelt fetch_page_meta today_stamp.
Let the_run := run token_set_ratio partial_ratio sha256_hexdigest strptime
                   utcoffset fetch_google_news fetch_gdelt fetch_page_meta
                   today_local today_stamp.
Let records := to_records_from strptime utcoffset today_local.

Lemma well_kept_keys (keep : list Row) :
  well_kept sha256_hexdigest token_set_ratio keep ->
  List.NoDup (map row_key keep).
Proof.
  induction keep as [ | r keep IH]; intros W; cbn [map]; [ constructor | ].
  constructor.
  - rewrite in_map_iff. intros (u & E & Hu).
    apply in_split in Hu as (p & q & ->).
    destruct (W (r :: p) u q eq_refl) as [F _].
    apply (F r); [ now left | ].
    apply same_bytes_same_hid. symmetry. exact E.
  - apply IH. intros p x q ->.
    destruct (W (r :: p) x q eq_refl) as [F1 F2].
    split; intros u Hu; [ apply F1 | apply F2 ]; now right.
Qed.

Lemma to_records_keys (i : nat) (rows : list Row) :
  map record_key (records i rows) = map row_key rows.
Proof.
  revert i. induction rows as [ | r rows IH]; intros i; [ reflexivity | ].
  subst records. cbn [to_records_from map]. f_equal. apply IH.
Qed.

Lemma to_records_In (i : nat) (rows : list Row) (rec : Record_) :
  In rec (records i rows) ->
  exists r j, In r rows /\ rec = to_record strptime utcoffset today_local j r.
Proof.
  revert i. induction rows as [ | r rows IH]; intros i; [ intros [] | ].
  subst records. cbn [to_records_from]. intros [<- | H].
  - exists r, i. split; [ now left | reflexivity ].
  - destruct (IH (S i) H) as (r' & j & Hr & E).
    exists r', j. split; [ now right | exact E ].
Qed.

Lemma to_records_length (i : nat) (rows : list Row) :
  List.length (records i rows) = List.length rows.
Proof.
  revert i. induction rows as [ | r rows IH]; intros i; [ reflexivity | ].
  subst records. cbn [to_records_from List.length]. f_equal. apply IH.
Qed.

Lemma pooled_scores (materials pinned : list string) (r : Row) :
  In r (pool materials pinned) -> (60 <= score r <= 100)%Z.
Proof.
  subst pool. unfold pooled_rows. intros H. apply in_app_or in H as [H | H].
  - apply in_flat_map in H as (mat & _ & H).
    apply material_rows_floor in H as [F E].
    unfold MIN_RELEVANCE in F. split; [ exact F | ].
    rewrite E.
    apply (relevance_score_any_ratios token_set_ratio partial_ratio (item r)).
  - apply pinned_rows_score in H as [-> _]. lia.
Qed.

Lemma run_some (materials pinned : list string) (out : list Record_) :
  the_run materials pinned = Some out ->
  out = sort_values
          (records 0 (deduplicate sha256_hexdigest token_set_ratio
                        (pool materials pinned))).
Proof.
  subst the_run. rewrite run_eq. fold pool.
  destruct (deduplicate _ _ _); [ discriminate | ]. now intros [= <-].
Qed.

(** X5.  The run takes the early return of line 412 exactly when the pool
    is empty: deduplication never empties a pool that holds a row.  With at
    least one pinned link the pool is never empty, so a data frame with at
    least one record is produced whatever the fetchers return; this is the
    case for the configured [PINNED_SIGNALS]. *)
Theorem run_reports_unless_pool_empty (materials pinned : list string) :
  (run token_set_ratio partial_ratio sha256_hexdigest strptime utcoffset
       fetch_google_news fetch_gdelt fetch_page_meta today_local today_stamp
       materials pinned = None <->
   pooled_rows token_set_ratio partial_ratio fetch_google_news fetch_gdelt
               fetch_page_meta today_stamp materials pinned = []) /\
  (pinned <> [] ->
   exists rec out,
     run token_set_ratio partial_ratio sha256_hexdigest strptime utcoffset
         fetch_google_news fetch_gdelt fetch_page_meta today_local today_stamp
         materials pinned = Some (rec :: out)) /\
  (exists rec out,
     main token_set_ratio partial_ratio sha256_hexdigest strptime utcoffset
          fetch_google_news fetch_gdelt fetch_page_meta today_local today_stamp
     = Some (rec :: out)).
Proof.
  assert (A : forall mats pins,
             the_run mats pins = None <-> pool mats pins = []).
  { intros mats pins. subst the_run. rewrite run_eq. fold pool.
    rewrite <- (deduplicate_nil_iff sha256_hexdigest token_set_ratio).
    destruct (deduplicate _ _ _); split; intros H;
      try discriminate; reflexivity. }
  assert (B : forall mats pins, pins <> [] ->
             exists rec out, the_run mats pins = Some (rec :: out)).
  { intros mats pins Hp.
    destruct (the_run mats pins) as [out | ] eqn:E.
    - pose proof (run_some mats pins out E) as Eo.
      destruct out as [ | rec out]; [ | now exists rec, out ].
      exfalso. apply (f_equal (@List.length _)) in Eo.
      rewrite sort_values_length, to_records_length in Eo. cbn in Eo.
      symmetry in Eo. apply length_zero_iff_nil in Eo.
      subst the_run. rewrite run_eq in E. fold pool in E. rewrite Eo in E.
      discriminate.
    - apply A in E. subst pool. unfold pooled_rows in E.
      apply app_eq_nil in E as [_ E]. destruct pins; [ congruence | discriminate ]. }
  split; [ apply A | split; [ apply B | ] ].
  apply (B MATERIALS PINNED_SIGNALS). discriminate.
Qed.

(** X6.  Every record of the data frame is built from a row of the pool,
    field by field, and there are at most as many records as pooled rows.
    Its relevance lies between the floor 60 and 100: fetched rows were
    filtered at 60 and capped at 100, pinned rows carry 100. *)
Theorem run_records_come_from_pool (materials pinned : list string)
    (out : list Record_) (rec : Record_) :
  run token_set_ratio partial_ratio sha256_hexdigest strptime utcoffset
      fetch_google_news fetch_gdelt fetch_page_meta today_local today_stamp
      materials pinned = Some out ->
  In rec out ->
  (60 <= Relevance rec <= 100)%Z /\
  (List.length out <=
   List.length (pooled_rows token_set_ratio partial_ratio fetch_google_news
                            fetch_gdelt fetch_page_meta today_stamp
                            materials pinned))%nat /\
  exists r,
    In r (pooled_rows token_set_ratio partial_ratio fetch_google_news
                      fetch_gdelt fetch_page_meta today_stamp materials pinned) /\
    Material rec = material (item r) /\
    QueryVariant rec = query_variant (item r) /\
    Source rec = source (item r) /\
    Title rec = title (item r) /\
    Summary rec = summary (item r) /\
    URL rec = url (item r) /\
    Relevance rec = score r.
Proof.
  intros E Hrec. pose proof (run_some materials pinned out E) as Eo.
  destruct (deduplicate_spec sha256_hexdigest token_set_ratio
              (pool materials pinned)) as (S & _ & _).
  assert (Hr : exists r, In r (pool materials pinned) /\
                         exists j, rec = to_record strptime utcoffset today_local j r).
  { rewrite Eo in Hrec.
    apply (Permutation_in _ (Permutation_sym (sort_values_perm _))) in Hrec.
    apply to_records_In in Hrec as (r & j & Hr & Er).
    exists r. split; [ | now exists j ].
    apply list_elem_of_In. apply list_elem_of_In in Hr.
    eapply elem_of_sublist; eassumption. }
  destruct Hr as (r & Hr & j & ->).
  split; [ apply (pooled_scores materials pinned r Hr) | ].
  split.
  - rewrite Eo, sort_values_length, to_records_length.
    now apply sublist_length.
  - exists r. split; [ exact Hr | ]. repeat split; reflexivity.
Qed.

(** X7.  No two records of the data frame have the same URL followed by
    the same title; in particular no two agree on both URL and title. *)
Theorem run_records_have_distinct_keys (materials pinned : list string)
    (out : list Record_) :
  run token_set_ratio partial_ratio sha256_hexdigest strptime utcoffset
      fetch_google_news fetch_gdelt fetch_page_meta today_local today_stamp
      materials pinned = Some out ->
  List.NoDup (map record_key out).
Proof.
  intros E. rewrite (run_some materials pinned out E).
  destruct (deduplicate_spec sha256_hexdigest token_set_ratio
              (pool materials pinned)) as (_ & W & _).
  apply well_kept_keys in W.
  eapply Permutation_NoDup.
  - apply Permutation_map. apply sort_values_perm.
  - rewrite to_records_keys. exact W.
Qed.

End RunShape.

(* ===================================================================== *)
(** * The relevance score reads lower-cased text only *)
(* ===================================================================== *)

Lemma lower_ascii_idempotent (c : ascii) :
  lower_ascii (lower_ascii c) = lower_ascii c.
Proof. destruct c as [[] [] [] [] [] [] [] []]; reflexivity. Qed.

Lemma lower_idempotent (s : string) : lower (lower s) = lower s.
Proof.
  induction s as [ | c s IH]; [ reflexivity | ].
  cbn [lower]. now rewrite lower_ascii_idempotent, IH.
Qed.

Lemma lower_app (a b : string) : lower (a ++ b) = (lower a ++ lower b)%string.
Proof.
  induction a as [ | c a IH]; [ reflexivity | ].
  simpl. now rewrite IH.
Qed.

Section ScoringShape.

Variable token_set_ratio : string -> string -> Q.
Variable partial_ratio : string -> string -> Q.

Lemma text_l_of_lower (row : Candidate) :
  text_l_of row = (lower (title row) ++ " " ++ lower (summary row))%string.
Proof. unfold text_l_of. now rewrite !lower_app. Qed.

(** X8.  The score depends on a row through its material and through its
    title and summary in lower case only: two rows for the same material
    whose titles and summaries agree up to letter case score the same,
    whatever their URL, source, query variant and timestamp. *)
Theorem relevance_score_ignores_case (row row' : Candidate) :
  material row = material row' ->
  lower (title row) = lower (title row') ->
  lower (summary row) = lower (summary row') ->
  relevance_score token_set_ratio partial_ratio row =
  relevance_score token_set_ratio partial_ratio row'.
Proof.
  intros M T S.
  assert (E : text_l_of row = text_l_of row')
    by (rewrite !text_l_of_lower; now rewrite T, S).
  unfold relevance_score, base_of, mpl_boost_of, east_boost_of,
    global_boost_of, generic_of.
  now rewrite M, E.
Qed.

End ScoringShape.

(* ===================================================================== *)
(** * Date normalisation: what a returned value is *)
(* ===================================================================== *)

Section DateShape.

Variable strptime : string -> string -> option Z.
Variable utcoffset : Z -> Z.



End DateShape.

(* ===================================================================== *)
(** * Text cleaning: normal forms *)
(* ===================================================================== *)


Lemma append_cons (c : ascii) (a b : string) :
  (String c a ++ b)%string = String c (a ++ b).
Proof. reflexivity. Qed.

Lemma append_nil_r (s : string) : (s ++ "")%string = s.
Proof.
  induction s as [ | c s IH]; [ reflexivity | ].
  now rewrite append_cons, IH.
Qed.

Lemma append_assoc (a b c : string) :
  ((a ++ b) ++ c)%string = (a ++ (b ++ c))%string.
Proof.
  induction a as [ | x a IH]; [ reflexivity | ].
  now rewrite !append_cons, IH.
Qed.

Lemma length_append (a b : string) :
  String.length (a ++ b) = (String.length a + String.length b)%nat.
Proof.
  induction a as [ | x a IH]; [ reflexivity | ].
  rewrite append_cons. cbn [String.length]. now rewrite IH.
Qed.

Lemma rstrip_cons_nonspace (c : ascii) (s : string) :
  py_isspace c = false -> rstrip (String c s) = String c (rstrip s).
Proof. intros H. cbn [rstrip]. rewrite H. now destruct (rstrip s). Qed.

Lemma rstrip_cons_space (c : ascii) (s : string) :
  py_isspace c = true ->
  rstrip (String c s) =
  match rstrip s with
  | EmptyString => EmptyString
  | String d t => String c (String d t)
  end.
Proof. intros H. cbn [rstrip]. now rewrite H. Qed.

Lemma lstrip_sub_spaces_true (s : string) :
  lstrip (sub_spaces true s) = sub_spaces true s.
Proof.
  induction s as [ | c s IH]; [ reflexivity | ].
  cbn [sub_spaces]. destruct (py_isspace c) eqn:E; [ exact IH | ].
  cbn [lstrip]. now rewrite E.
Qed.

(** Stripping on the left after the substitution is the substitution
    started inside a run. *)
Lemma lstrip_sub_spaces (s : string) :
  lstrip (sub_spaces false s) = sub_spaces true s.
Proof.
  destruct s as [ | c s]; [ reflexivity | ].
  cbn [sub_spaces]. destruct (py_isspace c) eqn:E.
  - cbn [lstrip]. change (py_isspace " ") with true. cbn iota.
    apply lstrip_sub_spaces_true.
  - cbn [lstrip]. now rewrite E.
Qed.

Lemma split_from_nonempty (cur s : string) :
  Forall (fun w => w <> "") (split_from cur s).
Proof.
  revert cur. induction s as [ | c s IH]; intros cur; cbn [split_from].
  - destruct cur; constructor; [ discriminate | constructor ].
  - destruct (py_isspace c); [ | apply IH ].
    destruct cur; [ apply IH | ].
    constructor; [ discriminate | apply IH ].
Qed.

Lemma join_spaces_cons (w : string) (l : list string) :
  join_spaces (w :: l) =
  match l with
  | [] => w
  | _ :: _ => (w ++ " " ++ join_spaces l)%string
  end.
Proof. reflexivity. Qed.

Lemma join_spaces_empty (l : list string) :
  Forall (fun w => w <> "") l -> join_spaces l = "" -> l = [].
Proof.
  intros F E. destruct l as [ | w l]; [ reflexivity | ].
  apply Forall_inv in F. rewrite join_spaces_cons in E.
  destruct l; [ contradiction | ].
  destruct w; [ contradiction | discriminate ].
Qed.

(** The two ways the substitution can stand with respect to a word in
    progress: after white space nothing is pending, inside a word the
    pending characters [cur] come first. *)
Lemma normalise_join (s : string) :
  rstrip (sub_spaces true s) = join_spaces (split_from "" s) /\
  (forall cur, cur <> "" ->
     (cur ++ rstrip (sub_spaces false s))%string = join_spaces (split_from cur s)).
Proof.
  induction s as [ | c s [IHt IHf]].
  - split; [ reflexivity | ].
    intros cur Hc. cbn. rewrite append_nil_r. now destruct cur.
  - cbn [sub_spaces split_from]. destruct (py_isspace c) eqn:E.
    + split; [ exact IHt | ].
      intros cur Hc. destruct cur as [ | x cur]; [ contradiction | ].
      rewrite rstrip_cons_space by reflexivity.
      rewrite join_spaces_cons, IHt.
      pose proof (split_from_nonempty "" s) as NE.
      destruct (split_from "" s) as [ | w ws] eqn:Es.
      * cbn. now rewrite append_nil_r.
      * destruct (join_spaces (w :: ws)) as [ | d t] eqn:Ej.
        -- apply join_spaces_empty in Ej; [ discriminate | exact NE ].
        -- reflexivity.
    + assert (A : forall cur, (cur ++ rstrip (String c (sub_spaces false s)))%string
                              = join_spaces (split_from (cur ++ String c "") s)).
      { intros cur. rewrite rstrip_cons_nonspace by exact E.
        rewrite <- IHf by (destruct cur; discriminate).
        now rewrite append_assoc. }
      split; [ apply (A "") | intros cur _; apply A ].
Qed.

Lemma chars_append (a b : string) : chars (a ++ b) = chars a ++ chars b.
Proof.
  induction a as [ | x a IH]; [ reflexivity | ].
  rewrite append_cons. cbn [chars app]. now rewrite IH.
Qed.

Lemma split_from_words (cur s : string) :
  (forall c, In c (chars cur) -> py_isspace c = false) ->
  Forall (fun w => w <> "" /\ forall c, In c (chars w) -> py_isspace c = false)
         (split_from cur s).
Proof.
  revert cur. induction s as [ | c s IH]; intros cur Hc; cbn [split_from].
  - destruct cur; constructor; [ | constructor ].
    split; [ discriminate | exact Hc ].
  - destruct (py_isspace c) eqn:E.
    + destruct cur as [ | x cur]; [ apply IH; intros d [] | ].
      constructor; [ split; [ discriminate | exact Hc ] | ].
      apply IH. intros d [].
    + apply IH. intros d Hd. rewrite chars_append in Hd.
      apply in_app_or in Hd as [Hd | [<- | []]]; [ now apply Hc | exact E ].
Qed.

(** Each step of the normalisation keeps the words. *)
Lemma split_from_sub_spaces (s : string) :
  (forall cur, split_from cur (sub_spaces false s) = split_from cur s) /\
  split_from "" (sub_spaces true s) = split_from "" s.
Proof.
  induction s as [ | c s [IHf IHt]]; [ split; reflexivity | ].
  cbn [sub_spaces]. destruct (py_isspace c) eqn:E.
  - split; [ intros cur | ]; cbn [split_from]; rewrite ?E.
    + change (py_isspace " ") with true. cbn iota. now rewrite IHt.
    + exact IHt.
  - split; [ intros cur | ]; cbn [split_from]; rewrite E; apply IHf.
Qed.

Lemma split_from_lstrip (s : string) :
  split_from "" (lstrip s) = split_from "" s.
Proof.
  induction s as [ | c s IH]; [ reflexivity | ].
  cbn [lstrip]. destruct (py_isspace c) eqn:E; [ | reflexivity ].
  cbn [split_from]. now rewrite E.
Qed.

Lemma split_from_rstrip (s cur : string) :
  split_from cur (rstrip s) = split_from cur s.
Proof.
  revert cur. induction s as [ | c s IH]; intros cur; [ reflexivity | ].
  destruct (py_isspace c) eqn:E.
  - rewrite rstrip_cons_space by exact E.
    cbn [split_from]. rewrite E.
    destruct (rstrip s) as [ | d t] eqn:R.
    + rewrite <- (IH ""). cbn [split_from]. now destruct cur.
    + cbn [split_from]. rewrite E. now rewrite <- (IH "").
  - rewrite rstrip_cons_nonspace by exact E.
    cbn [split_from]. rewrite E. apply IH.
Qed.

Lemma py_split_normalised (s : string) :
  py_split (strip (sub_spaces false s)) = py_split s.
Proof.
  unfold py_split, strip.
  rewrite split_from_rstrip, split_from_lstrip.
  apply (proj1 (split_from_sub_spaces s)).
Qed.

Lemma normalise_idempotent (s : string) :
  strip (sub_spaces false (strip (sub_spaces false s))) = strip (sub_spaces false s).
Proof.
  assert (N : forall t, strip (sub_spaces false t) = join_spaces (py_split t)).
  { intros t. unfold strip. rewrite lstrip_sub_spaces.
    apply (proj1 (normalise_join t)). }
  rewrite (N (strip (sub_spaces false s))), py_split_normalised.
  symmetry. apply N.
Qed.

Section CleaningFacts.

Variable html_unescape : string -> string.

(** X10.  [clean_text] returns the words of the unescaped text, in order,
    separated by single spaces: no white space at either end, no white
    space other than single spaces inside.  A missing or empty input gives
    the empty string. *)
Theorem clean_text_joins_words (x : option string) :
  (falsy x = true -> clean_text html_unescape x = "") /\
  (falsy x = false ->
   clean_text html_unescape x =
   join_spaces (py_split (html_unescape (or_empty x)))) /\
  Forall (fun w => w <> "" /\ forall c, In c (chars w) -> py_isspace c = false)
         (py_split (html_unescape (or_empty x))).
Proof.
  unfold clean_text. split; [ | split ].
  - now intros ->.
  - intros ->. unfold strip. rewrite lstrip_sub_spaces.
    apply (proj1 (normalise_join _)).
  - apply split_from_words. intros c [].
Qed.

(** X11.  [clean_text] changes white space only: its result has the words
    of the unescaped input.  Its result is a fixed point of the white-space
    normalisation, so cleaning a cleaned text again changes nothing as long
    as [html.unescape] finds nothing more to unescape in it. *)
Theorem clean_text_stable (x : option string) :
  (falsy x = false ->
   py_split (clean_text html_unescape x) = py_split (html_unescape (or_empty x))) /\
  strip (sub_spaces false (clean_text html_unescape x)) = clean_text html_unescape x /\
  (html_unescape (clean_text html_unescape x) = clean_text html_unescape x ->
   clean_text html_unescape (Some (clean_text html_unescape x))
   = clean_text html_unescape x).
Proof.
  assert (A : strip (sub_spaces false (clean_text html_unescape x))
              = clean_text html_unescape x).
  { unfold clean_text. destruct (falsy x); [ reflexivity | ].
    apply normalise_idempotent. }
  split; [ | split; [ exact A | ] ].
  - intros F. unfold clean_text. rewrite F. apply py_split_normalised.
  - intros U. unfold clean_text at 1.
    destruct (clean_text html_unescape x) as [ | c y] eqn:E; [ reflexivity | ].
    cbn [falsy or_empty]. now rewrite U.
Qed.

End CleaningFacts.

Lemma substring_length_le (i n : nat) (s : string) :
  (String.length (substring i n s) <= n)%nat.
Proof.
  revert i n. induction s as [ | c s IH]; intros i n.
  - destruct i, n; cbn; lia.
  - destruct i as [ | i].
    + destruct n as [ | n]; cbn [substring String.length]; [ lia | ].
      specialize (IH 0%nat n). lia.
    + cbn [substring]. apply IH.
Qed.

Lemma lstrip_length_le (s : string) : (String.length (lstrip s) <= String.length s)%nat.
Proof.
  induction s as [ | c s IH]; [ cbn; lia | ].
  cbn [lstrip]. destruct (py_isspace c); cbn [String.length] in *; lia.
Qed.

Lemma rstrip_length_le (s : string) : (String.length (rstrip s) <= String.length s)%nat.
Proof.
  induction s as [ | c s IH]; [ cbn; lia | ].
  cbn [rstrip]. destruct (rstrip s); [ destruct (py_isspace c) | ];
    cbn [String.length] in *; lia.
Qed.

Lemma strip_length_le (s : string) : (String.length (strip s) <= String.length s)%nat.
Proof.
  unfold strip. pose proof (rstrip_length_le (lstrip s)).
  pose proof (lstrip_length_le s). lia.
Qed.

Lemma take_sentences_length (max_chars : nat) (out : string) (parts : list string) :
  (String.length out <= max_chars)%nat ->
  (String.length (take_sentences max_chars out parts) <= max_chars)%nat.
Proof.
  revert out. induction parts as [ | p parts IH]; intros out H; cbn [take_sentences].
  - exact H.
  - destruct (falsy (Some p)); [ now apply IH | ].
    destruct (max_chars <? String.length out + String.length p + 1)%nat eqn:E;
      [ exact H | ].
    apply Nat.ltb_ge in E. apply IH.
    rewrite !length_append. cbn [String.length]. lia.
Qed.

Section SummaryFacts.

Variable html_unescape : string -> string.
Variable get_text : string -> string.
Variable re_split_sentences : string -> list string.

(** X12.  A summary is the cleaned text itself when that fits in
    [max_chars].  Otherwise it is never empty and it is either made of
    whole leading sentences, stripped, within [max_chars] characters, or the
    first [max_chars] characters of the cleaned text followed by an
    ellipsis.  So a summary is never longer than [max_chars] characters
    plus the ellipsis, however the text splits into sentences. *)
Theorem summarize_text_bounded (html_or_text : option string) (max_chars : nat) :
  let text := clean_text html_unescape (Some (get_text (or_empty html_or_text))) in
  let summary_ := summarize_text html_unescape get_text re_split_sentences
                                 html_or_text max_chars in
  ((String.length text <= max_chars)%nat -> summary_ = text) /\
  ((max_chars < String.length text)%nat ->
   summary_ <> "" /\
   ((String.length summary_ <= max_chars)%nat \/
    summary_ = (substring 0 max_chars text ++ ELLIPSIS)%string)) /\
  (String.length summary_ <= max_chars + String.length ELLIPSIS)%nat.
Proof.
  intros text summary_. subst summary_. unfold summarize_text. fold text.
  set (out := take_sentences max_chars "" (re_split_sentences text)).
  assert (B : (String.length (strip out) <= max_chars)%nat).
  { pose proof (strip_length_le out).
    pose proof (take_sentences_length max_chars "" (re_split_sentences text)).
    fold out in H0. cbn [String.length] in H0. lia. }
  destruct (String.length text <=? max_chars)%nat eqn:L.
  - apply Nat.leb_le in L. split; [ reflexivity | ].
    split; [ intros H; lia | lia ].
  - apply Nat.leb_gt in L. split; [ intros H; lia | ].
    destruct (strip out) as [ | c t] eqn:S; cbn [falsy].
    + split.
      * intros _. split; [ | now right ].
        intros E. apply (f_equal String.length) in E.
        rewrite length_append in E. cbn in E. lia.
      * rewrite length_append.
        pose proof (substring_length_le 0 max_chars text). lia.
    + split; [ intros _; split; [ discriminate | now left ] | lia ].
Qed.

End SummaryFacts.

(* ===================================================================== *)
(** * The fetchers: what they return *)
(* ===================================================================== *)

Section FetcherFacts.

Variable html_unescape : string -> string.
Variable get_text : string -> string.
Variable re_split_sentences : string -> list string.
Variable quote_plus : string -> string.
Variable feed_entries : string -> list Entry.
Variable unwrap_link : string -> string.
Variable network : nat -> Outcome.
Variable random_random : nat -> Q.
Variable r_json : string -> JsonBody.
Variable parse_page : string -> option (option string * string).

Lemma safe_get_sent (u : string) (st : Net) :
  (sent (snd (safe_get network random_random u st)) <= sent st + 3)%nat.
Proof. apply (safe_get_loop_sent network random_random u (seq 1 3) st). Qed.

(** When no request succeeds the loop uses up its attempts and returns
    nothing. *)
Lemma safe_get_loop_all_fail (u : string) (attempts : list nat) (st : Net) :
  (forall n, returned (network n) = None) ->
  fst (safe_get_loop network random_random u attempts st) = None /\
  sent (snd (safe_get_loop network random_random u attempts st))
  = (sent st + List.length attempts)%nat.
Proof.
  intros F. revert st. induction attempts as [ | a rest IH]; intros st.
  - cbn. split; [ reflexivity | lia ].
  - cbn [safe_get_loop requests_get]. rewrite F.
    match goal with
    | |- context [safe_get_loop _ _ _ rest ?st2] => destruct (IH st2) as [I1 I2]
    end.
    split; [ exact I1 | ]. rewrite I2.
    destruct (a <? RETRY_ATTEMPTS)%nat; cbn; lia.
Qed.

Lemma safe_get_all_fail (u : string) (st : Net) :
  (forall n, returned (network n) = None) ->
  fst (safe_get network random_random u st) = None /\
  sent (snd (safe_get network random_random u st)) = (sent st + 3)%nat.
Proof. intros F. apply (safe_get_loop_all_fail u (seq 1 3) st F). Qed.

Lemma clean_text_fixed (x : option string) :
  strip (sub_spaces false (clean_text html_unescape x)) = clean_text html_unescape x.
Proof.
  unfold clean_text. destruct (falsy x); [ reflexivity | ].
  apply normalise_idempotent.
Qed.

(** X13.  [fetch_google_news] returns at most twelve rows for each query
    of the material.  Every row carries the material, the source tag
    "GoogleNewsRSS" and the query that found it, has a URL and a timestamp
    string, a title with normalised white space and a summary of at most
    280 characters plus the ellipsis.  Feeds without entries give no
    rows. *)
Theorem fetch_google_news_rows (material_ : string) :
  let rows := fetch_google_news html_unescape get_text re_split_sentences
                                quote_plus feed_entries unwrap_link material_ in
  (List.length rows
   <= MAX_ITEMS_PER_MATERIAL_PER_SOURCE * List.length (expand_queries material_))%nat /\
  (forall row, In row rows ->
     material row = material_ /\
     source row = "GoogleNewsRSS" /\
     In (query_variant row) (expand_queries material_) /\
     url row <> None /\ published row <> None /\
     strip (sub_spaces false (title row)) = title row /\
     (String.length (summary row) <= 280 + String.length ELLIPSIS)%nat) /\
  ((forall u, feed_entries u = []) -> rows = []).
Proof.
  intros rows. subst rows. unfold fetch_google_news.
  generalize (expand_queries material_). intros qs.
  split; [ | split ].
  - induction qs as [ | q qs IH]; [ cbn; lia | ].
    cbn [flat_map]. rewrite length_app, length_map, length_firstn.
    cbn [List.length]. lia.
  - intros row H. apply in_flat_map in H as (q & Hq & H).
    apply in_map_iff in H as (e & <- & _).
    cbn [google_row material source query_variant url published title summary].
    repeat split; try assumption; try discriminate.
    + apply clean_text_fixed.
    + apply (summarize_text_bounded html_unescape get_text re_split_sentences).
  - intros E. induction qs as [ | q qs IH]; [ reflexivity | ].
    cbn [flat_map]. now rewrite E, IH.
Qed.

Lemma gdelt_loop_facts (material_ : string) (queries : list string)
    (out : list Candidate) (st : Net) :
  let res := gdelt_loop html_unescape network random_random r_json
                        material_ queries out st in
  (sent (snd res) <= sent st + 3 * List.length queries)%nat /\
  (forall rows, fst res = Some rows ->
     exists extra,
       rows = out ++ extra /\
       (List.length extra
        <= MAX_ITEMS_PER_MATERIAL_PER_SOURCE * List.length queries)%nat /\
       forall row, In row extra ->
         material row = material_ /\ source row = "GDELT" /\
         In (query_variant row) queries) /\
  ((forall n, returned (network n) = None) ->
   fst res = Some out /\ sent (snd res) = (sent st + 3 * List.length queries)%nat) /\
  ((forall body, r_json body <> JsonMalformed) -> fst res <> None).
Proof.
  revert out st. induction queries as [ | q rest IH]; intros out st res.
  - subst res. cbn [gdelt_loop fst snd List.length].
    split; [ lia | split; [ | split ] ].
    + intros rows [= <-]. exists []. rewrite app_nil_r.
      split; [ reflexivity | split; [ cbn; lia | intros row [] ] ].
    + intros _. split; [ reflexivity | lia ].
    + intros _. discriminate.
  - subst res. cbn [gdelt_loop].
    pose proof (safe_get_sent gdelt_url st) as B.
    pose proof (safe_get_all_fail gdelt_url st) as AF.
    destruct (safe_get network random_random gdelt_url st) as [r st1].
    cbn [fst snd] in B, AF.
    assert (K : forall out',
      (exists arts, out' = out ++ map (gdelt_row html_unescape material_ q)
                                      (firstn MAX_ITEMS_PER_MATERIAL_PER_SOURCE arts)) ->
      let res := gdelt_loop html_unescape network random_random r_json
                            material_ rest out' st1 in
      (sent (snd res) <= sent st + 3 * List.length (q :: rest))%nat /\
      (forall rows, fst res = Some rows ->
         exists extra,
           rows = out ++ extra /\
           (List.length extra
            <= MAX_ITEMS_PER_MATERIAL_PER_SOURCE * List.length (q :: rest))%nat /\
           forall row, In row extra ->
             material row = material_ /\ source row = "GDELT" /\
             In (query_variant row) (q :: rest)) /\
      ((forall body, r_json body <> JsonMalformed) -> fst res <> None)).
    { intros out' (arts & ->) res.
      destruct (IH (out ++ map (gdelt_row html_unescape material_ q)
                                (firstn MAX_ITEMS_PER_MATERIAL_PER_SOURCE arts)) st1)
        as (I1 & I2 & _ & I4).
      fold res in I1, I2, I4. cbn [List.length].
      split; [ lia | split; [ | exact I4 ] ].
      intros rows Hr. destruct (I2 rows Hr) as (extra & -> & L & P).
      exists (map (gdelt_row html_unescape material_ q)
                  (firstn MAX_ITEMS_PER_MATERIAL_PER_SOURCE arts) ++ extra).
      split; [ now rewrite app_assoc | ].
      split.
      - rewrite length_app, length_map, length_firstn. lia.
      - intros row Hrow. apply in_app_or in Hrow as [Hrow | Hrow].
        + apply in_map_iff in Hrow as (a & <- & _).
          cbn [gdelt_row material source query_variant].
          repeat split. now left.
        + destruct (P row Hrow) as (P1 & P2 & P3).
          repeat split; try assumption. now right. }
    assert (K0 := K out (ex_intro _ [] (eq_sym (app_nil_r out)))).
    cbv zeta in K0. destruct K0 as (K1 & K2 & K4).
    assert (AllFail : (forall n, returned (network n) = None) ->
              fst (gdelt_loop html_unescape network random_random r_json
                              material_ rest out st1) = Some out /\
              sent (snd (gdelt_loop html_unescape network random_random r_json
                                    material_ rest out st1))
              = (sent st + 3 * List.length (q :: rest))%nat).
    { intros F. destruct (AF F) as [_ S1].
      destruct (IH out st1) as (_ & _ & I3 & _).
      destruct (I3 F) as [E1 E2]. split; [ exact E1 | ].
      rewrite E2, S1. cbn [List.length]. lia. }
    destruct r as [body | ].
    + destruct (r_json body) as [ | arts | ] eqn:J.
      * split; [ exact K1 | split; [ exact K2 | split; [ | exact K4 ] ] ].
        intros F. destruct (AF F) as [X _]. discriminate.
      * destruct (K _ (ex_intro _ arts eq_refl)) as (A1 & A2 & A4).
        split; [ exact A1 | split; [ exact A2 | split; [ | exact A4 ] ] ].
        intros F. destruct (AF F) as [X _]. discriminate.
      * cbn [fst snd List.length].
        split; [ lia | split; [ discriminate | split ] ].
        -- intros F. destruct (AF F) as [X _]. discriminate.
        -- intros NM. now destruct (NM body).
    + split; [ exact K1 | split; [ exact K2 | split; [ exact AllFail | exact K4 ] ] ].
Qed.

Lemma expand_queries_head (material_ : string) :
  exists rest, expand_queries material_ = material_ :: rest.
Proof.
  rewrite expand_queries_eq.
  destruct (dict_fromkeys_head material_ (default [] (SYNONYMS !! material_)))
    as ((rest & E & _) & _).
  now exists rest.
Qed.

Lemma gdelt_queries_some (material_ : string) :
  exists queries,
    gdelt_queries (expand_queries material_) = Some queries /\
    (List.length queries <= List.length (expand_queries material_) + 2)%nat /\
    List.NoDup queries /\
    (forall q, In q (expand_queries material_) -> In q queries).
Proof.
  destruct (expand_queries_head material_) as (rest & E). rewrite E.
  cbn [gdelt_queries]. eexists. split; [ reflexivity | ].
  split; [ | split ].
  - match goal with
    | |- (List.length (dict_fromkeys ?s ?l) <= _)%nat =>
        pose proof (sublist_length _ _ (dict_fromkeys_sublist s l)) as L
    end.
    rewrite length_app in L. cbn [List.length] in *. lia.
  - apply dict_fromkeys_NoDup.
  - intros q H. apply dict_fromkeys_In. split; [ | set_solver ].
    apply in_or_app. now left.
Qed.

(** X14.  [fetch_gdelt] asks GDELT once per query of a duplicate-free list
    that holds every query of the material and at most two more.  It sends
    at most three requests per query and, when it returns, gives at most
    twelve rows per query, each carrying the material, the source tag
    "GDELT" and the query that found it.  When every request fails it
    returns no rows after exactly three requests per query.  It raises only
    on a decoded body that is not an object holding a list of articles. *)
Theorem fetch_gdelt_rows (material_ : string) (st : Net) :
  let res := fetch_gdelt html_unescape network random_random r_json material_ st in
  exists queries,
    gdelt_queries (expand_queries material_) = Some queries /\
    (List.length queries <= List.length (expand_queries material_) + 2)%nat /\
    List.NoDup queries /\
    (forall q, In q (expand_queries material_) -> In q queries) /\
    (sent (snd res) <= sent st + RETRY_ATTEMPTS * List.length queries)%nat /\
    (forall rows, fst res = Some rows ->
       (List.length rows
        <= MAX_ITEMS_PER_MATERIAL_PER_SOURCE * List.length queries)%nat /\
       forall row, In row rows ->
         material row = material_ /\ source row = "GDELT" /\
         In (query_variant row) queries) /\
    ((forall n, returned (network n) = None) ->
     fst res = Some [] /\
     sent (snd res) = (sent st + RETRY_ATTEMPTS * List.length queries)%nat) /\
    ((forall body, r_json body <> JsonMalformed) -> fst res <> None).
Proof.
  intros res. subst res.
  destruct (gdelt_queries_some material_) as (queries & E & L & N & I).
  exists queries. unfold fetch_gdelt. rewrite E.
  destruct (gdelt_loop_facts material_ queries [] st) as (F1 & F2 & F3 & F4).
  cbv zeta in F1, F2, F3, F4. change RETRY_ATTEMPTS with 3%nat.
  split; [ reflexivity | ].
  split; [ exact L | ]. split; [ exact N | ]. split; [ exact I | ].
  split; [ exact F1 | ].
  split; [ | split; [ exact F3 | exact F4 ] ].
  intros rows Hr. destruct (F2 rows Hr) as (extra & -> & Le & P).
  split; assumption.
Qed.

(** X15.  [fetch_page_meta] sends at most three requests and always returns
    a title and a description with normalised white space.  When no request
    succeeds, or the page cannot be parsed, it returns the fallback title
    "Pinned: External insight" with an empty description; a page without a
    title element gets the fallback title (which [html.unescape] leaves as
    it is) and keeps its description. *)
Theorem fetch_page_meta_fallback (u : string) (st : Net) :
  let res := fetch_page_meta html_unescape network random_random parse_page u st in
  (sent (snd res) <= sent st + RETRY_ATTEMPTS)%nat /\
  strip (sub_spaces false (fst (fst res))) = fst (fst res) /\
  strip (sub_spaces false (snd (fst res))) = snd (fst res) /\
  ((forall n, returned (network n) = None) -> fst res = PINNED_FALLBACK) /\
  ((forall body, parse_page body = None) -> fst res = PINNED_FALLBACK) /\
  (forall body desc,
     fst (safe_get network random_random u st) = Some body ->
     parse_page body = Some (None, desc) ->
     html_unescape "Pinned: External insight" = "Pinned: External insight" ->
     fst res = ("Pinned: External insight", clean_text html_unescape (Some desc))).
Proof.
  intros res. subst res. unfold fetch_page_meta.
  pose proof (safe_get_sent u st) as B.
  pose proof (safe_get_all_fail u st) as AF.
  change RETRY_ATTEMPTS with 3%nat.
  destruct (safe_get network random_random u st) as [r st1].
  cbn [fst snd] in B, AF.
  destruct r as [body | ].
  - destruct (parse_page body) as [[page_title desc] | ] eqn:P; cbn [fst snd].
    + split; [ exact B | ].
      split; [ apply clean_text_fixed | ].
      split; [ apply clean_text_fixed | ].
      split; [ intros F; destruct (AF F) as [X _]; discriminate | ].
      split; [ intros F; rewrite F in P; discriminate | ].
      intros body' desc' [= <-] P' U. rewrite P in P'.
      injection P' as -> ->. f_equal.
      change (clean_text html_unescape (Some (default "Pinned: External insight" None)))
        with (strip (sub_spaces false (html_unescape "Pinned: External insight"))).
      rewrite U. reflexivity.
    + split; [ exact B | ].
      repeat (split; [ reflexivity | ]).
      intros body' desc' [= <-] P'. rewrite P in P'. discriminate.
  - cbn [fst snd]. split; [ exact B | ].
    repeat (split; [ reflexivity | ]).
    intros body' desc' X. discriminate.
Qed.

End FetcherFacts.

(* ===================================================================== *)
(** * The alert text: which records it lists *)
(* ===================================================================== *)

Definition alert_le (a b : Record_) : Prop := alert_leb a b = true.

Lemma alert_leb_lexicographic (a b : Record_) :
  alert_leb a b = true <->
  (Relevance b < Relevance a)%Z \/
  (Relevance a = Relevance b /\ (Published b <= Published a)%Z).
Proof.
  unfold alert_leb.
  destruct (Relevance b <? Relevance a)%Z eqn:R1.
  - apply Z.ltb_lt in R1. split; [ now left | reflexivity ].
  - apply Z.ltb_ge in R1.
    destruct (Relevance a <? Relevance b)%Z eqn:R2.
    + apply Z.ltb_lt in R2. split; [ discriminate | lia ].
    + apply Z.ltb_ge in R2. rewrite Z.leb_le. split; [ | lia ].
      intros P. right. split; [ lia | exact P ].
Qed.

Lemma alert_le_total (a b : Record_) :
  alert_leb a b = false -> alert_leb b a = true.
Proof.
  intros H. apply alert_leb_lexicographic.
  destruct (alert_leb b a) eqn:E; [ now apply alert_leb_lexicographic | ].
  exfalso.
  assert (N1 : ~ alert_leb a b = true) by (rewrite H; discriminate).
  assert (N2 : ~ alert_leb b a = true) by (rewrite E; discriminate).
  rewrite alert_leb_lexicographic in N1, N2. lia.
Qed.

#[local] Instance alert_le_trans : Transitive alert_le.
Proof.
  intros a b c. unfold alert_le. rewrite !alert_leb_lexicographic. lia.
Qed.

Lemma alert_insert_perm (x : Record_) (l : list Record_) :
  Permutation (x :: l) (alert_insert x l).
Proof.
  induction l as [ | y l IH]; cbn [alert_insert]; [ reflexivity | ].
  destruct (alert_leb x y); [ reflexivity | ].
  rewrite perm_swap. now apply perm_skip.
Qed.

Lemma alert_sort_perm (l : list Record_) : Permutation l (alert_sort l).
Proof.
  induction l as [ | x l IH]; cbn [alert_sort]; [ reflexivity | ].
  rewrite <- alert_insert_perm. now apply perm_skip.
Qed.

Lemma alert_insert_sorted (x : Record_) (l : list Record_) :
  Sorted alert_le l -> Sorted alert_le (alert_insert x l).
Proof.
  induction l as [ | y l IH]; intros S; cbn [alert_insert].
  - repeat constructor.
  - destruct (alert_leb x y) eqn:C.
    + constructor; [ exact S | now constructor ].
    + apply Sorted_inv in S as [S H]. constructor; [ now apply IH | ].
      destruct l as [ | z l]; cbn [alert_insert].
      * constructor. now apply alert_le_total.
      * destruct (alert_leb x z).
        -- constructor. now apply alert_le_total.
        -- constructor. now apply HdRel_inv in H.
Qed.

Lemma alert_sort_sorted (l : list Record_) :
  StronglySorted alert_le (alert_sort l).
Proof.
  apply Sorted_StronglySorted; [ exact alert_le_trans | ].
  induction l as [ | x l IH]; cbn [alert_sort]; [ constructor | ].
  now apply alert_insert_sorted.
Qed.

Lemma StronglySorted_app_inv {A : Type} (R : A -> A -> Prop) (l1 l2 : list A) :
  StronglySorted R (l1 ++ l2) ->
  StronglySorted R l1 /\ forall a b, In a l1 -> In b l2 -> R a b.
Proof.
  induction l1 as [ | x l1 IH]; cbn [app]; intros S.
  - split; [ constructor | intros a b [] ].
  - apply StronglySorted_inv in S as [S F].
    destruct (IH S) as [S1 C]. rewrite List.Forall_forall in F. split.
    + constructor; [ exact S1 | ].
      apply List.Forall_forall. intros y Hy. apply F. apply in_or_app. now left.
    + intros a b [<- | Ha] Hb.
      * apply F. apply in_or_app. now right.
      * now apply C.
Qed.

Section AlertFacts.

Variable strftime : Z -> string.

(** X17.  [format_alert] writes the header and one entry per sampled record.
    The sample holds the first [limit] records of the frame ordered by
    relevance and then publication time, both descending: it has
    [min limit (len df)] records, it is in that order, and every record of
    the frame left out of it ranks no higher than any record in it.  An
    empty frame gives the header alone. *)
Theorem format_alert_top_records (df : list Record_) (limit : nat) :
  let sample := alert_sample df limit in
  format_alert strftime df limit
  = join_with newline (ALERT_HEADER :: map (alert_line strftime) sample) /\
  List.length sample = Nat.min limit (List.length df) /\
  StronglySorted alert_le sample /\
  (exists rest,
     Permutation df (sample ++ rest) /\
     forall a b, In a sample -> In b rest ->
       (Relevance b < Relevance a)%Z \/
       (Relevance a = Relevance b /\ (Published b <= Published a)%Z)) /\
  format_alert strftime [] limit = ALERT_HEADER.
Proof.
  intros sample. subst sample. unfold alert_sample.
  pose proof (alert_sort_sorted df) as S.
  rewrite <- (firstn_skipn limit (alert_sort df)) in S.
  apply StronglySorted_app_inv in S as [S1 C].
  split; [ reflexivity | ].
  split.
  { rewrite length_firstn. now rewrite <- (Permutation_length (alert_sort_perm df)). }
  split; [ exact S1 | ].
  split.
  - exists (skipn limit (alert_sort df)). split.
    + rewrite firstn_skipn. apply alert_sort_perm.
    + intros a b Ha Hb. apply alert_leb_lexicographic. now apply C.
  - unfold format_alert, alert_sample. cbn [alert_sort]. now rewrite firstn_nil.
Qed.

End AlertFacts.

(* ===================================================================== *)
(** * The pinned rows (lines 392-405) *)
(* ===================================================================== *)

Section PinnedShape.

Variable fetch_page_meta : string -> string * string.
Variable today_stamp : nat -> string.

Lemma pinned_row_fields (i : nat) (u : string) :
  let r := pinned_row fetch_page_meta today_stamp i u in
  url (item r) = Some u /\ score r = 100%Z /\ title (item r) <> "" /\
  material (item r) = "MULTI / GLOBAL" /\ source (item r) = "Pinned" /\
  summary (item r) = snd (fetch_page_meta u) /\
  (fst (fetch_page_meta u) <> "" -> title (item r) = fst (fetch_page_meta u)).
Proof.
  unfold pinned_row. destruct (fetch_page_meta u) as [page_title desc].
  cbn [item url score title material source summary fst snd].
  repeat (split; [ reflexivity | ]).
  split; [ | split; [ reflexivity | split; [ reflexivity | split; [ reflexivity | ] ] ] ].
  - destruct page_title; cbn [falsy]; discriminate.
  - destruct page_title; cbn [falsy]; [ congruence | reflexivity ].
Qed.

(** X16.  The pinned part of the pool holds one row per pinned link, in the
    order of the links and with the link as its URL.  Each row has score
    100, material "MULTI / GLOBAL", source "Pinned", the description of the
    page as its summary and a title that is never empty: the title of the
    page, or "Pinned: External insight" when the page gave none. *)
Theorem pinned_rows_one_per_link (i : nat) (pinned : list string) :
  let rows := pinned_rows_from fetch_page_meta today_stamp i pinned in
  map (fun r => url (item r)) rows = map Some pinned /\
  map (fun r => summary (item r)) rows
  = map (fun u => snd (fetch_page_meta u)) pinned /\
  map (fun r => title (item r)) rows
  = map (fun u => if falsy (Some (fst (fetch_page_meta u)))
                  then "Pinned: External insight"
                  else fst (fetch_page_meta u)) pinned /\
  forall r, In r rows ->
    score r = 100%Z /\ title (item r) <> "" /\
    material (item r) = "MULTI / GLOBAL" /\ source (item r) = "Pinned".
Proof.
  revert i. induction pinned as [ | u urls IH]; intros i rows; subst rows.
  - cbn. repeat split; try reflexivity; contradiction.
  - cbn [pinned_rows_from map].
    destruct (IH (S i)) as (I1 & I2 & I3 & I4).
    destruct (pinned_row_fields i u) as (P1 & P2 & P3 & P4 & P5 & P6 & _).
    split; [ now rewrite P1, I1 | ].
    split; [ now rewrite P6, I2 | ].
    split.
    + rewrite I3. f_equal. unfold pinned_row.
      now destruct (fetch_page_meta u).
    + intros r [<- | H]; [ | now apply I4 ].
      repeat split; assumption.
Qed.

End PinnedShape.

(* ===================================================================== *)
(** * Worked instances *)
(* ===================================================================== *)

Module Instances.

(** Two unrelated rows. *)
Definition propane_jump : Row := row_of "a.example/1" "Propane prices jump".
Definition acetone_fall : Row := row_of "c.example/3" "Acetone exports fall".

(** A run over one material and one pinned link: GDELT returns the article
    of [Scenario], the pinned page has its own title. *)
Definition shipping_page (_ : string) : string * string :=
  ("Shipping outlook", "Page").

Definition stamp (_ : nat) : string := "2023-01-02 10:00:00".

Definition clock (_ : nat) : Z := Ref.JAN_2_2023_10H.

Definition fetched_record : Record_ :=
  {| Material := "LPG GAS";
     QueryVariant := "LPG GAS";
     Source := "GDELT";
     Title := "LPG gas supply crisis deepens";
     Summary := "";
     URL := Some "https://www.bbc.com/news/articles/c9qy98gp474o";
     Published := 63808261200000000;
     Relevance := 100 |}.

Definition shipping_record : Record_ :=
  {| Material := "MULTI / GLOBAL";
     QueryVariant := "Pinned";
     Source := "Pinned";
     Title := "Shipping outlook";
     Summary := "Page";
     URL := Some "pinned.example/a";
     Published := 63808250400000000;
     Relevance := 100 |}.

End Instances.

Lemma shipping_run :
  run Ref.token_set_ratio Ref.partial_ratio Ref.hexdigest Ref.strptime Ref.utcoffset
      Scenario.fetch_google_news Scenario.fetch_gdelt Instances.shipping_page
      Instances.clock Instances.stamp ["LPG GAS"] ["pinned.example/a"]
  = Some [Instances.fetched_record; Instances.shipping_record].
Proof. vm_compute. reflexivity. Qed.

Lemma deduplicate_rows_pairwise_new_witness :
  hid_of Ref.hexdigest Instances.propane_jump
  <> hid_of Ref.hexdigest Instances.acetone_fall /\
  ~ similar Ref.token_set_ratio Instances.acetone_fall Instances.propane_jump.
Proof.
  apply (deduplicate_rows_pairwise_new Ref.hexdigest Ref.token_set_ratio
           [Instances.propane_jump; Instances.acetone_fall]
           [Instances.propane_jump] []).
  - vm_compute. reflexivity.
  - now left.
Defined.

Lemma run_records_come_from_pool_witness :
  (60 <= Relevance Instances.shipping_record <= 100)%Z /\
  (List.length [Instances.fetched_record; Instances.shipping_record] <=
   List.length (pooled_rows Ref.token_set_ratio Ref.partial_ratio
                  Scenario.fetch_google_news Scenario.fetch_gdelt
                  Instances.shipping_page Instances.stamp
                  ["LPG GAS"] ["pinned.example/a"]))%nat /\
  exists r,
    In r (pooled_rows Ref.token_set_ratio Ref.partial_ratio
            Scenario.fetch_google_news Scenario.fetch_gdelt
            Instances.shipping_page Instances.stamp
            ["LPG GAS"] ["pinned.example/a"]) /\
    Material Instances.shipping_record = material (item r) /\
    QueryVariant Instances.shipping_record = query_variant (item r) /\
    Source Instances.shipping_record = source (item r) /\
    Title Instances.shipping_record = title (item r) /\
    Summary Instances.shipping_record = summary (item r) /\
    URL Instances.shipping_record = url (item r) /\
    Relevance Instances.shipping_record = score r.
Proof.
  apply (run_records_come_from_pool Ref.token_set_ratio Ref.partial_ratio
           Ref.hexdigest Ref.strptime Ref.utcoffset
           Scenario.fetch_google_news Scenario.fetch_gdelt Instances.shipping_page
           Instances.clock Instances.stamp ["LPG GAS"] ["pinned.example/a"]
           [Instances.fetched_record; Instances.shipping_record]).
  - exact shipping_run.
  - right. now left.
Defined.

Lemma run_records_have_distinct_keys_witness :
  List.NoDup (map record_key [Instances.fetched_record; Instances.shipping_record]).
Proof.
  apply (run_records_have_distinct_keys Ref.token_set_ratio Ref.partial_ratio
           Ref.hexdigest Ref.strptime Ref.utcoffset
           Scenario.fetch_google_news Scenario.fetch_gdelt Instances.shipping_page
           Instances.clock Instances.stamp ["LPG GAS"] ["pinned.example/a"]).
  exact shipping_run.
Defined.

Lemma relevance_score_ignores_case_witness :
  relevance_score Ref.token_set_ratio Ref.partial_ratio
    (acetone_row "Acetone Cosmetics") =
  relevance_score Ref.token_set_ratio Ref.partial_ratio
    (acetone_row "ACETONE cosmetics").
Proof.
  apply (relevance_score_ignores_case Ref.token_set_ratio Ref.partial_ratio);
    reflexivity.
Defined.

